(** * docker-api: the container resource wrapper (src/container.js)

    A shallow embedding of the two classes of [src/container.js],
    [ContainerFs] and [Container], and of the fragment of strict-mode
    JavaScript they are written in: property reads that throw on
    [undefined], truthiness, [typeof], template literals, array
    destructuring, identifier resolution, [Object.assign], and a store of
    class instances with reference semantics.

    Conventions of the model:
    - a method is run on the address [this] of its receiver in the store,
      a receiver on which the method and [this.__processArguments] are
      those of the method's own class ([has_method] below says when a
      stored instance is such a receiver: it has the prototype of the
      class and owns no property of that name);
    - the modem ([this.modem.dial]) is an external collaborator: a run
      records each [dial] request in a log, and the callback the operation
      hands to [dial] is a function that the environment applies to a reply
      [(err, result)] after the operation has returned;
    - modems, streams and functions are opaque values: they have no
      properties of their own that the code reads, copies or assigns
      over. *)

From Stdlib Require Import String Ascii ZArith List Bool Lia.
From stdpp Require Import base list strings pretty.

Set Warnings "-register-all".
Open Scope string_scope.

(** ** Values *)

Inductive js_error : Type :=
| TypeError (msg : string)
| ReferenceError (name : string).

Definition nullish_read : js_error :=
  TypeError "cannot read properties of undefined or null".
Definition not_iterable : js_error := TypeError "object is not iterable".
Definition not_a_function (what : string) : js_error :=
  TypeError (what +:+ " is not a function").

(** Plain data (option bags, parsed JSON bodies) is carried by value;
    class instances live in the store and are carried by reference.
    [VNum n] stands for the number [n] when [n] is a safe integer, and for
    the infinity of its sign otherwise. *)
Inductive value : Type :=
| VUndefined
| VNull
| VBool (b : bool)
| VNum (n : Z)
| VStr (s : string)
| VObj (props : list (string * value))
| VArr (elems : list value)
| VRef (l : nat)
| VModem (m : nat)
| VStream (s : nat)
| VFunction (src : string)
| VError (e : js_error).

Inductive completion (A : Type) : Type :=
| Normal (a : A)
| Throw (e : js_error).
Arguments Normal {A} a.
Arguments Throw {A} e.

Definition safe_integer (n : Z) : bool := (Z.abs n <? 2 ^ 53)%Z.

(** [!v] is [negb (truthy v)]. *)
Definition truthy (v : value) : bool :=
  match v with
  | VUndefined | VNull => false
  | VBool b => b
  | VNum n => negb (n =? 0)%Z
  | VStr s => negb (String.eqb s "")
  | _ => true
  end.

Definition typeof (v : value) : string :=
  match v with
  | VUndefined => "undefined"
  | VBool _ => "boolean"
  | VNum _ => "number"
  | VStr _ => "string"
  | VFunction _ => "function"
  | _ => "object"
  end.

(** What a template literal [`${v}`] interpolates, by the conversions of
    the built-in prototypes (an object that redefines [toString] or
    [valueOf], or that has no prototype, is read as one that has those of
    [Object.prototype]). *)
Fixpoint ToString (v : value) : string :=
  match v with
  | VUndefined => "undefined"
  | VNull => "null"
  | VBool true => "true"
  | VBool false => "false"
  | VNum n =>
      if safe_integer n then pretty n
      else if (n <? 0)%Z then "-Infinity" else "Infinity"
  | VStr s => s
  | VArr elems =>
      String.concat ","
        (map (fun e => match e with
                       | VUndefined | VNull => ""
                       | _ => ToString e
                       end) elems)
  | VFunction src => src
  | VError (TypeError msg) => "TypeError: " +:+ msg
  | VError (ReferenceError x) => "ReferenceError: " +:+ x +:+ " is not defined"
  | _ => "[object Object]"
  end.

(** ** Property lists (own properties, in insertion order) *)

Definition obj : Type := list (string * value).

Fixpoint prop_get (ps : obj) (k : string) : value :=
  match ps with
  | [] => VUndefined
  | (k', v) :: r => if String.eqb k' k then v else prop_get r k
  end.

Fixpoint prop_set (ps : obj) (k : string) (v : value) : obj :=
  match ps with
  | [] => [(k, v)]
  | (k', v') :: r =>
      if String.eqb k' k then (k', v) :: r else (k', v') :: prop_set r k v
  end.

Fixpoint index_get (k : string) (i : nat) (l : list value) : value :=
  match l with
  | [] => VUndefined
  | x :: r => if String.eqb k (pretty i) then x else index_get k (S i) r
  end.

Definition has_key (ps : obj) (k : string) : bool :=
  existsb (fun kv => String.eqb kv.1 k) ps.

Definition chars (s : string) : list value :=
  map (fun c => VStr (String c EmptyString)) (list_ascii_of_string s).

(** [v.k] for a value [v] that is no class instance, and a name [k] that
    is not a method of a built-in prototype. *)
Definition plain_get (v : value) (k : string) : value :=
  match v with
  | VObj ps => prop_get ps k
  | VArr elems =>
      if String.eqb k "length" then VNum (Z.of_nat (length elems))
      else index_get k 0 elems
  | VStr s =>
      if String.eqb k "length" then VNum (Z.of_nat (String.length s))
      else index_get k 0 (chars s)
  | _ => VUndefined
  end.

(** ** Class instances *)

(** The prototype of an instance: that of its class ([Container.prototype]
    or [ContainerFs.prototype], each over [Object.prototype]), or the
    object or [null] that an assignment to [__proto__] has installed. *)
Inductive prototype : Type :=
| ClassPrototype (class : string)
| Replaced (v : value).

Record instance : Type := mkInstance {
  own : obj;
  proto : prototype
}.

Definition object_or_null (v : value) : bool :=
  match v with
  | VUndefined | VBool _ | VNum _ | VStr _ => false
  | _ => true
  end.

(** Whether looking [__proto__] up from a prototype ends at the accessor
    of [Object.prototype]: not under a [null] prototype, and not when a
    parsed object on the way has a property of that name. *)
Definition reaches_proto_setter (p : prototype) : bool :=
  match p with
  | ClassPrototype _ => true
  | Replaced VNull => false
  | Replaced (VObj ps) => negb (has_key ps "__proto__")
  | Replaced _ => true
  end.

(** [o.k = v] on an instance ([[Set]]): the name [__proto__], unless the
    instance owns it or inherits no setter for it, goes to the setter of
    [Object.prototype], which installs an object or [null] as prototype
    and ignores any other value; every other name becomes or updates an
    own property.  (The instances this file assigns to are newly built and
    nothing refers to them, so the setter's cycle check never fails; from
    a class instance installed as prototype the lookup is taken to reach
    the accessor, which matters only to a second assignment of
    [__proto__] to the same instance.) *)
Definition set_property (i : instance) (k : string) (v : value) : instance :=
  if String.eqb k "__proto__" && negb (has_key (own i) k)
     && reaches_proto_setter (proto i)
  then (if object_or_null v then mkInstance (own i) (Replaced v) else i)
  else mkInstance (prop_set (own i) k v) (proto i).

(** What an instance inherits under such a name: nothing from the
    prototype of its class, and from an installed prototype the property
    this one has (none is read of a prototype that is itself a class
    instance). *)
Definition inherited (p : prototype) (k : string) : value :=
  match p with
  | ClassPrototype _ => VUndefined
  | Replaced v => plain_get v k
  end.


(** ** The call descriptor handed to [dial] *)

Record call : Type := mkCall {
  path : string;
  method : string;
  options : value;
  statusCodes : list (Z * value)
}.

(** ** World: the store of class instances and the log of requests *)

Inductive event : Type :=
| ECall (this : nat) (name : string) (args : list value)
| EDial (modem : nat) (c : call).

Record world : Type := mkWorld {
  store : list instance;
  log : list event
}.

(** State and exception monad over the world. *)
Definition M (A : Type) : Type := world -> world * completion A.

#[global] Instance M_ret : MRet M := fun A a w => (w, Normal a).
#[global] Instance M_bind : MBind M := fun A B f m w =>
  match m w with
  | (w', Normal a) => f a w'
  | (w', Throw e) => (w', Throw e)
  end.

Definition throw {A : Type} (e : js_error) : M A := fun w => (w, Throw e).

Definition emit (ev : event) : M unit := fun w =>
  (mkWorld (store w) (log w ++ [ev])%list, Normal tt).

Definition get_world : M world := fun w => (w, Normal w).

(** The property [k] of the instance at [l]: the one it owns, or else the
    one it inherits. *)
Definition field (w : world) (l : nat) (k : string) : value :=
  match store w !! l with
  | Some i =>
      if has_key (own i) k then prop_get (own i) k else inherited (proto i) k
  | None => VUndefined
  end.

(** [v.k] for a property name [k] that no class or built-in prototype
    defines (no method, and not the accessor [__proto__]). *)
Definition GetV (v : value) (k : string) : M value :=
  match v with
  | VUndefined | VNull => throw nullish_read
  | VRef l => w ← get_world; mret (field w l k)
  | _ => mret (plain_get v k)
  end.

(** [this.k = v] on a class instance. *)
Definition SetV (l : nat) (k : string) (v : value) : M unit := fun w =>
  (mkWorld (alter (fun i => set_property i k v) l (store w)) (log w), Normal tt).

(** A fresh empty instance of a class, as [new] creates before the
    constructor runs. *)
Definition alloc (class : string) : M nat := fun w =>
  (mkWorld (store w ++ [mkInstance [] (ClassPrototype class)])%list (log w),
   Normal (length (store w))).

(** The own enumerable properties [Object.assign] copies from a source. *)
Definition own_props (σ : list instance) (v : value) : obj :=
  match v with
  | VObj ps => ps
  | VArr elems => imap (fun i x => (pretty i, x)) elems
  | VStr s => imap (fun i x => (pretty i, x)) (chars s)
  | VRef l => default [] (own <$> σ !! l)
  | _ => []
  end.

Fixpoint assign_props (target : nat) (ps : obj) : M unit :=
  match ps with
  | [] => mret tt
  | (k, v) :: r => _ ← SetV target k v; assign_props target r
  end.

(** [Object.assign(target, source)] with a class instance as target: each
    own property of the source is assigned to the target in turn. *)
Definition Object_assign (target : nat) (source : value) : M value :=
  w ← get_world;
  _ ← assign_props target (own_props (store w) source);
  mret (VRef target).

(** ** Iteration and identifier resolution *)

(** [GetIterator]: what an array pattern [[a, b] = v] starts with. *)
Definition GetIterator (v : value) : M (list value) :=
  match v with
  | VArr elems => mret elems
  | VStr s => mret (chars s)
  | VUndefined | VNull => throw (TypeError "undefined is not iterable")
  | _ => throw not_iterable
  end.

Definition item (vs : list value) (i : nat) : value := default VUndefined (vs !! i).

(** [[ a, b ] = r] with both targets declared parameters. *)
Definition destructure2 (r : value) : M (value * value) :=
  vs ← GetIterator r;
  mret (item vs 0, item vs 1).

(** A lexical environment: the bindings visible from a method body. *)
Definition env : Type := list (string * value).

Fixpoint env_get (ρ : env) (x : string) : option value :=
  match ρ with
  | [] => None
  | (x', v) :: r => if String.eqb x' x then Some v else env_get r x
  end.

(** The bindings around every method body of the file: the two class
    declarations of the module, then the built-ins of the global object
    that the file uses. *)
Definition module_env : env :=
  [("ContainerFs", VFunction "class ContainerFs");
   ("Container", VFunction "class Container");
   ("Promise", VFunction "function Promise() { [native code] }");
   ("Object", VFunction "function Object() { [native code] }")].

Definition method_env (params : env) : env := (params ++ module_env)%list.

(** Reading an identifier; an unresolvable one throws. *)
Definition GetValue (ρ : env) (x : string) : M value :=
  match env_get ρ x with
  | Some v => mret v
  | None => throw (ReferenceError x)
  end.

(** Assigning to an identifier in strict code; an unresolvable one throws. *)
Definition PutValue (ρ : env) (x : string) (v : value) : M env :=
  match env_get ρ x with
  | Some _ => mret (prop_set ρ x v)
  | None => throw (ReferenceError x)
  end.

(** ** Promises *)

Inductive settlement : Type :=
| Resolve (v : value)
| Reject (reason : value).

Inductive promise_state : Type :=
| Pending
| Fulfilled (v : value)
| Rejected (reason : value).

(** [resolve] and [reject] act on a pending promise only. *)
Definition settle (p : promise_state) (s : settlement) : promise_state :=
  match p with
  | Pending => match s with
               | Resolve v => Fulfilled v
               | Reject e => Rejected e
               end
  | _ => p
  end.

(** What one run of a [dial] callback does to the promise: it calls
    [resolve] or [reject], or it returns having put listeners on the
    stream it was given. *)
Inductive cb_effect : Type :=
| Settled (s : settlement)
| Subscribed (stream : value) (buffer : list string).

Definition callback : Type := value -> value -> M cb_effect.

Record promise : Type := mkPromise {
  state : promise_state;
  on_reply : option callback
}.

(** [new Promise((resolve, reject) => { this.modem.dial(call, cb) })]:
    the executor runs at once; if it throws, the constructor returns a
    rejected promise. *)
Definition new_Promise (this : nat) (c : call) (cb : callback) : M promise :=
  modem ← GetV (VRef this) "modem";
  match modem with
  | VModem m => _ ← emit (EDial m c); mret (mkPromise Pending (Some cb))
  | VUndefined | VNull =>
      mret (mkPromise (Rejected (VError nullish_read)) None)
  | _ => mret (mkPromise (Rejected (VError (not_a_function "dial"))) None)
  end.

(** The two callback shapes most operations pass to [dial]. *)
Definition resolve_with_result : callback := fun err res =>
  if truthy err then mret (Settled (Reject err))
  else mret (Settled (Resolve res)).

Definition resolve_with_nothing : callback := fun err _ =>
  if truthy err then mret (Settled (Reject err))
  else mret (Settled (Resolve VUndefined)).

(** [this.name(args)]: a method call on the receiver, recorded in the log. *)
Definition invoke {A : Type} (this : nat) (name : string) (args : list value)
    (body : M A) : M A :=
  _ ← emit (ECall this name args); body.

(** The object literal [{ opts, id }]. *)
Definition record (opts id : value) : value := VObj [("opts", opts); ("id", id)].

(** [[ _, id ] = r] in a method whose only parameter is [id]: the iterator
    is obtained first, then each target is assigned in turn. *)
Definition destructure_blank_id (ρ : env) (r : value) : M env :=
  vs ← GetIterator r;
  ρ ← PutValue ρ "_" (item vs 0);
  PutValue ρ "id" (item vs 1).

(** [array.map(f)] with an effectful [f]. *)
Fixpoint array_map (f : value -> M value) (l : list value) : M (list value) :=
  match l with
  | [] => mret []
  | x :: r => y ← f x; ys ← array_map f r; mret (y :: ys)
  end.

(** ** class ContainerFs *)

Module ContainerFs.

Definition constructor (modem container : value) : M nat :=
  this ← alloc "ContainerFs";
  _ ← SetV this "modem" modem;
  _ ← SetV this "container" container;
  mret this.

Definition __processArguments (this : nat) (opts id : value) : M value :=
  let id := if String.eqb (typeof opts) "string" && negb (truthy id)
            then opts else id in
  id ← (if negb (truthy opts) && negb (truthy id)
        then container ← GetV (VRef this) "container"; GetV container "id"
        else mret id);
  mret (record opts id).

(** The body of [info] from the destructuring on, given what
    [this.__processArguments(id)] returned. *)
Definition info_resume (this : nat) (ρ : env) (r : value) : M promise :=
  ρ ← destructure_blank_id ρ r;
  id ← GetValue ρ "id";
  opts ← GetValue ρ "opts";
  let call :=
    mkCall ("/containers/" +:+ ToString id +:+ "/archive") "HEAD" opts
      [(200, VBool true); (404, VStr "bad request"); (500, VStr "server error")]%Z in
  new_Promise this call resolve_with_result.

Definition info (this : nat) (id : value) : M promise :=
  r ← invoke this "__processArguments" [id] (__processArguments this id VUndefined);
  info_resume this (method_env [("id", id)]) r.

Definition get_call (opts id : value) : call :=
  mkCall ("/containers/" +:+ ToString id +:+ "/archive") "GET" opts
    [(200, VBool true); (400, VStr "bad request");
     (404, VStr "no such container"); (500, VStr "server error")]%Z.

Definition get (this : nat) (opts id : value) : M promise :=
  r ← invoke this "__processArguments" [opts; id] (__processArguments this opts id);
  '(opts, id) ← destructure2 r;
  new_Promise this (get_call opts id) resolve_with_result.

Definition put_call (opts id : value) : call :=
  mkCall ("/containers/" +:+ ToString id +:+ "/archive") "PUT" opts
    [(200, VBool true); (400, VStr "bad request"); (403, VStr "permission denied");
     (404, VStr "no such container"); (500, VStr "server error")]%Z.

Definition put (this : nat) (opts id : value) : M promise :=
  r ← invoke this "__processArguments" [opts; id] (__processArguments this opts id);
  '(opts, id) ← destructure2 r;
  new_Promise this (put_call opts id) resolve_with_result.

End ContainerFs.

(** ** class Container *)

(** Events of the tar stream that [export] listens to when it buffers. *)
Inductive stream_event : Type :=
| Data (chunk : string)
| End_.

Module Container.

Definition constructor (modem id : value) : M nat :=
  this ← alloc "Container";
  _ ← SetV this "modem" modem;
  _ ← SetV this "id" id;
  fs ← ContainerFs.constructor modem (VRef this);
  _ ← SetV this "fs" (VRef fs);
  mret this.

Definition __processArguments (this : nat) (opts id : value) : M value :=
  let id := if String.eqb (typeof opts) "string" && negb (truthy id)
            then opts else id in
  id ← (if negb (truthy opts) && negb (truthy id)
        then GetV (VRef this) "id"
        else mret id);
  mret (record opts id).

Definition create_call (opts : value) : call :=
  mkCall "/containers/json" "GET" opts
    [(200, VBool true); (400, VStr "bad request"); (404, VStr "no such container");
     (406, VStr "impossible to attach"); (500, VStr "server error")]%Z.

Definition create_callback (this : nat) : callback := fun err conf =>
  if truthy err then mret (Settled (Reject err))
  else
    modem ← GetV (VRef this) "modem";
    Id ← GetV conf "Id";
    container ← constructor modem Id;
    h ← Object_assign container conf;
    mret (Settled (Resolve h)).

Definition create (this : nat) (opts : value) : M promise :=
  new_Promise this (create_call opts) (create_callback this).

Definition inspect_call (opts id : value) : call :=
  mkCall ("/containers/" +:+ ToString id +:+ "/json") "GET" opts
    [(200, VBool true); (404, VStr "no such container"); (500, VStr "server error")]%Z.

Definition inspect_callback (this : nat) (id : value) : callback := fun err conf =>
  if truthy err then mret (Settled (Reject err))
  else
    modem ← GetV (VRef this) "modem";
    container ← constructor modem id;
    h ← Object_assign container conf;
    mret (Settled (Resolve h)).

Definition inspect (this : nat) (opts id : value) : M promise :=
  r ← invoke this "__processArguments" [opts; id] (__processArguments this opts id);
  '(opts, id) ← destructure2 r;
  new_Promise this (inspect_call opts id) (inspect_callback this id).

Definition top_call (opts id : value) : call :=
  mkCall ("/containers/" +:+ ToString id +:+ "/top") "GET" opts
    [(200, VBool true); (404, VStr "no such container"); (500, VStr "server error")]%Z.

Definition top (this : nat) (opts id : value) : M promise :=
  r ← invoke this "__processArguments" [opts; id] (__processArguments this opts id);
  '(opts, id) ← destructure2 r;
  new_Promise this (top_call opts id) resolve_with_result.

Definition logs_call (opts id : value) : call :=
  mkCall ("/containers/" +:+ ToString id +:+ "/logs") "GET" opts
    [(101, VBool true); (200, VBool true);
     (404, VStr "no such container"); (500, VStr "server error")]%Z.

Definition logs (this : nat) (opts id : value) : M promise :=
  r ← invoke this "__processArguments" [opts; id] (__processArguments this opts id);
  '(opts, id) ← destructure2 r;
  new_Promise this (logs_call opts id) resolve_with_result.

Definition changes_resume (this : nat) (ρ : env) (r : value) : M promise :=
  ρ ← destructure_blank_id ρ r;
  id ← GetValue ρ "id";
  opts ← GetValue ρ "opts";
  let call :=
    mkCall ("/containers/" +:+ ToString id +:+ "/changes") "GET" opts
      [(200, VBool true); (404, VStr "no such container"); (500, VStr "server error")]%Z in
  new_Promise this call resolve_with_result.

Definition changes (this : nat) (id : value) : M promise :=
  r ← invoke this "__processArguments" [id] (__processArguments this id VUndefined);
  changes_resume this (method_env [("id", id)]) r.

Definition export_call (opts id : value) : call :=
  mkCall ("/containers/" +:+ ToString id +:+ "/export") "GET" opts
    [(200, VBool true); (404, VStr "no such container"); (500, VStr "server error")]%Z.

(** The ['data'] and ['end'] listeners of the buffered branch, over the
    array [res] they share. *)
Definition export_on_data (res : list string) (chunk : string) : list string :=
  (res ++ [chunk])%list.

Definition export_on_end (res : list string) : settlement :=
  Resolve (VStr (String.concat "" res)).

Definition export_callback (opts : value) : callback := fun err tarStream =>
  if truthy err then mret (Settled (Reject err))
  else
    stream ← GetV opts "stream";
    if truthy stream then mret (Settled (Resolve tarStream))
    else match tarStream with
         | VStream _ => mret (Subscribed tarStream [])
         | VUndefined | VNull => throw nullish_read
         | _ => throw (not_a_function "tarStream.on")
         end.

(** The body of [export] once [opts] and [id] are resolved. *)
Definition export_resume (this : nat) (opts id : value) : M promise :=
  new_Promise this (export_call opts id) (export_callback opts).

Definition export (this : nat) (opts id : value) : M promise :=
  r ← invoke this "__processArguments" [opts; id] (__processArguments this opts id);
  '(opts, id) ← destructure2 r;
  export_resume this opts id.

Definition stats_call (opts id : value) : call :=
  mkCall ("/containers/" +:+ ToString id +:+ "/export") "GET" opts
    [(200, VBool true); (404, VStr "no such container"); (500, VStr "server error")]%Z.

(** The body of [stats] once [opts] and [id] are resolved. *)
Definition stats_resume (this : nat) (opts id : value) : M promise :=
  new_Promise this (stats_call opts id) resolve_with_result.

Definition stats (this : nat) (opts id : value) : M promise :=
  r ← invoke this "__processArguments" [opts; id] (__processArguments this opts id);
  '(opts, id) ← destructure2 r;
  stats_resume this opts id.

Definition resize_call (opts id : value) : call :=
  mkCall ("/containers/" +:+ ToString id +:+ "/resize") "GET" opts
    [(200, VBool true); (404, VStr "no such container"); (500, VStr "server error")]%Z.

Definition resize (this : nat) (opts id : value) : M promise :=
  r ← invoke this "__processArguments" [opts; id] (__processArguments this opts id);
  '(opts, id) ← destructure2 r;
  new_Promise this (resize_call opts id) resolve_with_result.

Definition start_call (opts id : value) : call :=
  mkCall ("/containers/" +:+ ToString id +:+ "/start") "POST" opts
    [(204, VBool true); (304, VBool true);
     (404, VStr "no such container"); (500, VStr "server error")]%Z.

Definition start (this : nat) (opts id : value) : M promise :=
  r ← invoke this "__processArguments" [opts; id] (__processArguments this opts id);
  '(opts, id) ← destructure2 r;
  new_Promise this (start_call opts id) resolve_with_nothing.

Definition stop_call (opts id : value) : call :=
  mkCall ("/containers/" +:+ ToString id +:+ "/stop") "POST" opts
    [(204, VBool true); (304, VBool true);
     (404, VStr "no such container"); (500, VStr "server error")]%Z.

Definition stop (this : nat) (opts id : value) : M promise :=
  r ← invoke this "__processArguments" [opts; id] (__processArguments this opts id);
  '(opts, id) ← destructure2 r;
  new_Promise this (stop_call opts id) resolve_with_nothing.

Definition restart_call (opts id : value) : call :=
  mkCall ("/containers/" +:+ ToString id +:+ "/restart") "POST" opts
    [(204, VBool true); (404, VStr "no such container"); (500, VStr "server error")]%Z.

Definition restart (this : nat) (opts id : value) : M promise :=
  r ← invoke this "__processArguments" [opts; id] (__processArguments this opts id);
  '(opts, id) ← destructure2 r;
  new_Promise this (restart_call opts id) resolve_with_nothing.

Definition kill_call (opts id : value) : call :=
  mkCall ("/containers/" +:+ ToString id +:+ "/kill") "POST" opts
    [(204, VBool true); (404, VStr "no such container"); (500, VStr "server error")]%Z.

Definition kill (this : nat) (opts id : value) : M promise :=
  r ← invoke this "__processArguments" [opts; id] (__processArguments this opts id);
  '(opts, id) ← destructure2 r;
  new_Promise this (kill_call opts id) resolve_with_nothing.

Definition update_call (opts id : value) : call :=
  mkCall ("/containers/" +:+ ToString id +:+ "/update") "POST" opts
    [(200, VBool true); (400, VStr "bad request");
     (404, VStr "no such container"); (500, VStr "server error")]%Z.

Definition update (this : nat) (opts id : value) : M promise :=
  r ← invoke this "__processArguments" [opts; id] (__processArguments this opts id);
  '(opts, id) ← destructure2 r;
  new_Promise this (update_call opts id) resolve_with_result.

Definition rename_call (opts id : value) : call :=
  mkCall ("/containers/" +:+ ToString id +:+ "/rename") "POST" opts
    [(204, VBool true); (404, VStr "no such container");
     (409, VStr "name already taken"); (500, VStr "server error")]%Z.

Definition rename (this : nat) (opts id : value) : M promise :=
  r ← invoke this "__processArguments" [opts; id] (__processArguments this opts id);
  '(opts, id) ← destructure2 r;
  new_Promise this (rename_call opts id) resolve_with_nothing.

Definition pause_resume (this : nat) (ρ : env) (r : value) : M promise :=
  ρ ← destructure_blank_id ρ r;
  id ← GetValue ρ "id";
  opts ← GetValue ρ "opts";
  let call :=
    mkCall ("/containers/" +:+ ToString id +:+ "/pause") "POST" opts
      [(204, VBool true); (404, VStr "no such container"); (500, VStr "server error")]%Z in
  new_Promise this call resolve_with_nothing.

Definition pause (this : nat) (id : value) : M promise :=
  r ← invoke this "__processArguments" [id] (__processArguments this id VUndefined);
  pause_resume this (method_env [("id", id)]) r.

Definition unpause_resume (this : nat) (ρ : env) (r : value) : M promise :=
  ρ ← destructure_blank_id ρ r;
  id ← GetValue ρ "id";
  opts ← GetValue ρ "opts";
  let call :=
    mkCall ("/containers/" +:+ ToString id +:+ "/unpause") "POST" opts
      [(204, VBool true); (404, VStr "no such container"); (500, VStr "server error")]%Z in
  new_Promise this call resolve_with_nothing.

Definition unpause (this : nat) (id : value) : M promise :=
  r ← invoke this "__processArguments" [id] (__processArguments this id VUndefined);
  unpause_resume this (method_env [("id", id)]) r.

Definition attach_call (opts id : value) : call :=
  mkCall ("/containers/" +:+ ToString id +:+ "/attach") "POST" opts
    [(101, VBool true); (200, VBool true); (400, VStr "bad request");
     (404, VStr "no such container"); (500, VStr "server error")]%Z.

Definition attach (this : nat) (opts id : value) : M promise :=
  r ← invoke this "__processArguments" [opts; id] (__processArguments this opts id);
  '(opts, id) ← destructure2 r;
  new_Promise this (attach_call opts id) resolve_with_result.

Definition wsattach_call (opts id : value) : call :=
  mkCall ("/containers/" +:+ ToString id +:+ "/attach/ws") "GET" opts
    [(200, VBool true); (400, VStr "bad request");
     (404, VStr "no such container"); (500, VStr "server error")]%Z.

Definition wsattach (this : nat) (opts id : value) : M promise :=
  r ← invoke this "__processArguments" [opts; id] (__processArguments this opts id);
  '(opts, id) ← destructure2 r;
  new_Promise this (wsattach_call opts id) resolve_with_result.

Definition wait_resume (this : nat) (ρ : env) (r : value) : M promise :=
  ρ ← destructure_blank_id ρ r;
  id ← GetValue ρ "id";
  opts ← GetValue ρ "opts";
  let call :=
    mkCall ("/containers/" +:+ ToString id +:+ "/wait") "POST" opts
      [(200, VBool true); (404, VStr "no such container"); (500, VStr "server error")]%Z in
  new_Promise this call resolve_with_result.

Definition wait (this : nat) (id : value) : M promise :=
  r ← invoke this "__processArguments" [id] (__processArguments this id VUndefined);
  wait_resume this (method_env [("id", id)]) r.

Definition delete_call (opts id : value) : call :=
  mkCall ("/containers/" +:+ ToString id) "DELETE" opts
    [(204, VBool true); (400, VStr "bad request");
     (404, VStr "no such container"); (500, VStr "server error")]%Z.

Definition delete (this : nat) (opts id : value) : M promise :=
  r ← invoke this "__processArguments" [opts; id] (__processArguments this opts id);
  '(opts, id) ← destructure2 r;
  new_Promise this (delete_call opts id) resolve_with_nothing.

Definition list_call (opts : value) : call :=
  mkCall "/containers/json" "GET" opts
    [(200, VBool true); (400, VStr "bad request"); (500, VStr "server error")]%Z.

Definition list_callback (this : nat) : callback := fun err containers =>
  if truthy err then mret (Settled (Reject err))
  else match containers with
       | VArr confs =>
           hs ← array_map (fun conf =>
                   modem ← GetV (VRef this) "modem";
                   Id ← GetV conf "Id";
                   container ← constructor modem Id;
                   Object_assign container conf) confs;
           mret (Settled (Resolve (VArr hs)))
       | VUndefined | VNull => throw nullish_read
       | _ => throw (not_a_function "containers.map")
       end.

Definition list (this : nat) (opts : value) : M promise :=
  new_Promise this (list_call opts) (list_callback this).

End Container.

(** ** Running operations *)

(** The operations that start with [this.__processArguments(opts, id)]. *)
Inductive binary_operation : Type :=
| FsGet | FsPut
| Inspect | Top | Logs | Export | Stats | Resize | Start | Stop | Restart
| Kill | Update | Rename | Attach | Wsattach | Delete.

(** The operations that start with [this.__processArguments(id)]. *)
Inductive unary_operation : Type :=
| FsInfo | Changes | Pause | Unpause | Wait.

Inductive operation : Type :=
| Binary (o : binary_operation)
| Unary (o : unary_operation).

Definition run_binary (o : binary_operation) : nat -> value -> value -> M promise :=
  match o with
  | FsGet => ContainerFs.get
  | FsPut => ContainerFs.put
  | Inspect => Container.inspect
  | Top => Container.top
  | Logs => Container.logs
  | Export => Container.export
  | Stats => Container.stats
  | Resize => Container.resize
  | Start => Container.start
  | Stop => Container.stop
  | Restart => Container.restart
  | Kill => Container.kill
  | Update => Container.update
  | Rename => Container.rename
  | Attach => Container.attach
  | Wsattach => Container.wsattach
  | Delete => Container.delete
  end.

Definition run_unary (o : unary_operation) : nat -> value -> M promise :=
  match o with
  | FsInfo => ContainerFs.info
  | Changes => Container.changes
  | Pause => Container.pause
  | Unpause => Container.unpause
  | Wait => Container.wait
  end.

(** A call [handle.op(a, b)]; a unary operation ignores [b]. *)
Definition run (o : operation) (this : nat) (a b : value) : M promise :=
  match o with
  | Binary o => run_binary o this a b
  | Unary o => run_unary o this a
  end.

(** The body of a unary operation from its destructuring on. *)
Definition resume_unary (o : unary_operation) : nat -> env -> value -> M promise :=
  match o with
  | FsInfo => ContainerFs.info_resume
  | Changes => Container.changes_resume
  | Pause => Container.pause_resume
  | Unpause => Container.unpause_resume
  | Wait => Container.wait_resume
  end.

(** Which class an operation is a method of. *)
Definition on_ContainerFs (o : operation) : bool :=
  match o with
  | Binary FsGet | Binary FsPut | Unary FsInfo => true
  | _ => false
  end.

(** The argument list of the operation's call to its helper, and the
    helper's two parameters as it receives them. *)
Definition helper_args (o : operation) (a b : value) : list value :=
  match o with
  | Binary _ => [a; b]
  | Unary _ => [a]
  end.

Definition helper_second (o : operation) (b : value) : value :=
  match o with
  | Binary _ => b
  | Unary _ => VUndefined
  end.

Definition helper (o : operation) (this : nat) (a b : value) : M value :=
  if on_ContainerFs o
  then ContainerFs.__processArguments this a (helper_second o b)
  else Container.__processArguments this a (helper_second o b).

(** The [dial] requests in a log. *)
Fixpoint dials (t : list event) : list call :=
  match t with
  | [] => []
  | EDial _ c :: r => c :: dials r
  | ECall _ _ _ :: r => dials r
  end.

(** The requests a computation adds to the log of the world it starts in. *)
Definition requests {A : Type} (m : M A) (w : world) : list call :=
  dials (drop (length (log w)) (log (fst (m w)))).

(** ** Replies *)

(** The calls to [resolve] and [reject] that follow from one reply of the
    modem, given the events the stream handed to [export] emits later. *)
Fixpoint deliver (res : list string) (evs : list stream_event) : list settlement :=
  match evs with
  | [] => []
  | Data chunk :: evs => deliver (Container.export_on_data res chunk) evs
  | End_ :: evs => Container.export_on_end res :: deliver res evs
  end.

Definition settlements (r : completion cb_effect) (evs : list stream_event)
    : list settlement :=
  match r with
  | Normal (Settled s) => [s]
  | Normal (Subscribed _ res) => deliver res evs
  | Throw _ => []
  end.

Definition settle_all (p : promise_state) (ss : list settlement) : promise_state :=
  fold_left settle ss p.

(** The argument-resolution rule, as a function of the identifier the
    handle stores: the first argument stands for the identifier when it is
    a string and no second argument is given, and the stored identifier is
    used when neither is given. *)
Definition takes_first (first second : value) : bool :=
  String.eqb (typeof first) "string" && negb (truthy second).

Definition resolved_id (stored first second : value) : value :=
  let id := if takes_first first second then first else second in
  if negb (truthy first) && negb (truthy id) then stored else id.

Definition absent_or_empty (bag : value) : Prop :=
  bag = VUndefined \/ bag = VNull \/ bag = VObj [].

(** Own property names of a plain object. *)
Definition keys (ps : obj) : list string := map fst ps.

(** A handle with identifier ["abc"] on modem 0, with its [ContainerFs]. *)
Definition sample_world : world :=
  fst (Container.constructor (VModem 0) (VStr "abc") (mkWorld [] [])).

(** The identifier a handle stores: [this.id] for a [Container],
    [this.container.id] for a [ContainerFs]. *)
Definition stored_id (o : operation) (this : nat) : M value :=
  if on_ContainerFs o
  then container ← GetV (VRef this) "container"; GetV container "id"
  else GetV (VRef this) "id".

Definition logged (w : world) (ev : event) : world :=
  mkWorld (store w) (log w ++ [ev])%list.

(** The argument-resolution rule over an identifier source [stored]:
    the same string test and the same fallback for every handle. *)
Definition resolve_with (stored : M value) (first second : value) : M value :=
  let id := if takes_first first second then first else second in
  id ← (if negb (truthy first) && negb (truthy id) then stored else mret id);
  mret (record first id).

(** Per operation, the descriptor it builds and the callback it passes to
    [dial] once [opts] and [id] are resolved. *)
Definition binary_call (o : binary_operation) : value -> value -> call :=
  match o with
  | FsGet => ContainerFs.get_call
  | FsPut => ContainerFs.put_call
  | Inspect => Container.inspect_call
  | Top => Container.top_call
  | Logs => Container.logs_call
  | Export => Container.export_call
  | Stats => Container.stats_call
  | Resize => Container.resize_call
  | Start => Container.start_call
  | Stop => Container.stop_call
  | Restart => Container.restart_call
  | Kill => Container.kill_call
  | Update => Container.update_call
  | Rename => Container.rename_call
  | Attach => Container.attach_call
  | Wsattach => Container.wsattach_call
  | Delete => Container.delete_call
  end.

Definition binary_callback (o : binary_operation) (this : nat) (opts id : value)
    : callback :=
  match o with
  | Inspect => Container.inspect_callback this id
  | Export => Container.export_callback opts
  | Start | Stop | Restart | Kill | Rename | Delete => resolve_with_nothing
  | _ => resolve_with_result
  end.

(** The body of an operation after its call to the helper, given the
    helper's result [r]; [a] is the operation's first parameter. *)
Definition continue (o : operation) (this : nat) (a r : value) : M promise :=
  match o with
  | Binary o =>
      '(opts, id) ← destructure2 r;
      new_Promise this (binary_call o opts id) (binary_callback o this opts id)
  | Unary o => resume_unary o this (method_env [("id", a)]) r
  end.

(** What folding [target[k] = v] over a source's properties leaves in the
    target. *)
Definition merge (i : instance) (ps : obj) : instance :=
  fold_left (fun i kv => set_property i kv.1 kv.2) ps i.

(** [w'] keeps every instance of [w] as it was and may hold new ones. *)
Definition extends (w w' : world) : Prop :=
  (exists extra, store w' = (store w ++ extra)%list) /\ log w' = log w.

(** The instance a successful [create] or [list] builds for a body with
    properties [ps], and the [ContainerFs] next to it, at address [n]. *)
Definition new_handle (modem : value) (ps : obj) (n : nat) : list instance :=
  [merge (mkInstance [("modem", modem); ("id", prop_get ps "Id"); ("fs", VRef (S n))]
                     (ClassPrototype "Container")) ps;
   mkInstance [("modem", modem); ("container", VRef n)]
              (ClassPrototype "ContainerFs")].

(** The instances a successful [list] builds for the bodies [pss], from
    address [n] on, and the handles it resolves with. *)
Fixpoint built (modem : value) (pss : list obj) (n : nat) : list instance :=
  match pss with
  | [] => []
  | ps :: r => (new_handle modem ps n ++ built modem r (S (S n)))%list
  end.

Fixpoint addresses (pss : list obj) (n : nat) : list value :=
  match pss with
  | [] => []
  | _ :: r => VRef n :: addresses r (S (S n))
  end.

(** How a helper ends in a given world, and the error its caller then
    ends with: the record cannot be iterated; a failed read of the stored
    identifier propagates. *)
Definition helper_outcome (hb : M value) (a : value) (w : world) (e : js_error)
    : Prop :=
  (exists i, hb w = (w, Normal (record a i)) /\ e = not_iterable)
  \/ (hb w = (w, Throw nullish_read) /\ e = nullish_read).

(** ** Further definitions *)

Definition nullish (v : value) : bool :=
  match v with
  | VUndefined | VNull => true
  | _ => false
  end.

(** Decimal digits, and the strings made of them only: the names of array
    indices are among these. *)
Definition digit (c : ascii) : bool :=
  (Nat.leb 48 (nat_of_ascii c) && Nat.leb (nat_of_ascii c) 57)%bool.

Fixpoint numeral (s : string) : bool :=
  match s with
  | EmptyString => true
  | String c r => digit c && numeral r
  end.

(** A value that is neither a class instance nor an opaque object, as
    every value of a parsed reply is. *)
Definition plain (v : value) : bool :=
  match v with
  | VRef _ | VModem _ | VStream _ | VFunction _ | VError _ => false
  | _ => true
  end.

(** The methods each class defines. *)
Definition methods (class : string) : list string :=
  if String.eqb class "ContainerFs"
  then ["info"; "get"; "put"; "__processArguments"]
  else if String.eqb class "Container"
  then ["list"; "create"; "inspect"; "top"; "logs"; "changes"; "export";
        "stats"; "resize"; "start"; "stop"; "restart"; "kill"; "update";
        "rename"; "pause"; "unpause"; "attach"; "wsattach"; "wait"; "delete";
        "__processArguments"]
  else [].

(** [o.name], for the instance [o] at [l], is the method [name] of
    [class]: the prototype of [o] is that of the class, which defines the
    method, and [o] owns no property of that name. *)
Definition has_method (w : world) (l : nat) (class name : string) : bool :=
  match store w !! l with
  | Some i =>
      match proto i with
      | ClassPrototype c =>
          String.eqb c class && existsb (String.eqb name) (methods class)
          && negb (has_key (own i) name)
      | Replaced _ => false
      end
  | None => false
  end.

(** The names a reply to [create] must leave alone for the handle built
    from it to work as one of its class. *)
Definition reserved : list string :=
  "__proto__" :: "id" :: "modem" :: "fs" :: methods "Container".

(** [opts.stream], for an [opts] other than [undefined] and [null]. *)
Definition stream_flag (w : world) (opts : value) : value :=
  match opts with
  | VObj ps => prop_get ps "stream"
  | VRef l => field w l "stream"
  | _ => VUndefined
  end.

(** The error a call [handle.op(a, b)] ends with: that of the helper's
    read of [this.container.id] on a [ContainerFs] without container, when
    no argument is given; that of the array pattern in every other case. *)
Definition failure (o : operation) (this : nat) (a b : value) (w : world)
    : js_error :=
  if on_ContainerFs o && negb (truthy a) && negb (truthy (helper_second o b))
     && nullish (field w this "container")
  then nullish_read
  else not_iterable.

(** The chunks a stream emits before its first ['end'], if it ends. *)
Fixpoint until_end (evs : list stream_event) : option (list string) :=
  match evs with
  | [] => None
  | Data chunk :: r => option_map (cons chunk) (until_end r)
  | End_ :: _ => Some []
  end.

(** Status codes listed in ascending order, hence each at most once. *)
Fixpoint ascending (ks : list Z) : bool :=
  match ks with
  | a :: (b :: _) as r => (a <? b)%Z && ascending r
  | _ => true
  end.

(** Two operations that may share a route. *)
Definition export_or_stats (o : binary_operation) : Prop := o = Export \/ o = Stats.

(** ** examples/example.js *)

Module ExampleScript.

(** What the stream given to [promisifyStream] emits. *)
Inductive emitted : Type :=
| data (d : string)
| end_
| error (e : value).

(** [promisifyStream]: the three listeners over the events in turn. The
    first component is what [console.log] prints, the second the calls to
    [resolve] (by ['end'], which carries no argument) and [reject] (by
    ['error'], with the error). *)
Fixpoint promisifyStream (evs : list emitted) : list string * list settlement :=
  match evs with
  | [] => ([], [])
  | data d :: r =>
      let (out, ss) := promisifyStream r in (d :: out, ss)
  | end_ :: r =>
      let (out, ss) := promisifyStream r in (out, Resolve VUndefined :: ss)
  | error e :: r =>
      let (out, ss) := promisifyStream r in (out, Reject e :: ss)
  end.

End ExampleScript.

(** The first ['end'] or ['error'] among the events, as a promise state. *)
Fixpoint first_outcome (evs : list ExampleScript.emitted) : promise_state :=
  match evs with
  | [] => Pending
  | ExampleScript.data _ :: r => first_outcome r
  | ExampleScript.end_ :: _ => Fulfilled VUndefined
  | ExampleScript.error e :: _ => Rejected e
  end.

Fixpoint printed (evs : list ExampleScript.emitted) : list string :=
  match evs with
  | [] => []
  | ExampleScript.data d :: r => d :: printed r
  | _ :: r => printed r
  end.

(** A callback run that does not call [reject]. *)
Definition never_rejects (m : M cb_effect) : Prop :=
  forall w w' e, m w <> (w', Normal (Settled (Reject e))).

(** * Properties *)

(** ** The helpers *)

Lemma GetV_ref l k w : GetV (VRef l) k w = (w, Normal (field w l k)).
Proof. reflexivity. Qed.

Lemma GetV_world v k w : fst (GetV v k w) = w.
Proof. destruct v; reflexivity. Qed.

Lemma field_logged w ev l k : field (logged w ev) l k = field w l k.
Proof. reflexivity. Qed.

Lemma Container_helper_resolution this a b w :
  Container.__processArguments this a b w
  = (w, Normal (record a (resolved_id (field w this "id") a b))).
Proof.
  unfold Container.__processArguments, resolved_id, takes_first.
  destruct (String.eqb (typeof a) "string" && negb (truthy b));
    [destruct (negb (truthy a) && negb (truthy a))
    |destruct (negb (truthy a) && negb (truthy b))]; reflexivity.
Qed.

Lemma ContainerFs_helper_resolution this a b w s :
  (container ← GetV (VRef this) "container"; GetV container "id") w = (w, Normal s) ->
  ContainerFs.__processArguments this a b w
  = (w, Normal (record a (resolved_id s a b))).
Proof.
  unfold ContainerFs.__processArguments, resolved_id, takes_first.
  intros Hs.
  destruct (String.eqb (typeof a) "string" && negb (truthy b));
    [destruct (negb (truthy a) && negb (truthy a))
    |destruct (negb (truthy a) && negb (truthy b))]; try reflexivity;
    unfold mbind at 1, M_bind at 1; rewrite Hs; reflexivity.
Qed.

Lemma Container_helper_outcome this a b w :
  helper_outcome (Container.__processArguments this a b) a w not_iterable.
Proof.
  left. rewrite Container_helper_resolution. eexists. split; reflexivity.
Qed.

Lemma ContainerFs_helper_outcome this a b w :
  exists e, helper_outcome (ContainerFs.__processArguments this a b) a w e.
Proof.
  unfold helper_outcome, ContainerFs.__processArguments.
  destruct (negb (truthy a) && negb (truthy _)).
  - unfold mbind, M_bind. rewrite GetV_ref.
    destruct (field w this "container"); cbn;
      solve [ exists nullish_read; right; split; reflexivity
            | exists not_iterable; left; eexists; split; reflexivity ].
  - exists not_iterable. left. eexists. split; reflexivity.
Qed.

(** When the helper of [ContainerFs] throws, and that it returns the record
    otherwise. *)
Lemma ContainerFs_helper_cases (this : nat) (opts id : value) (w : world) :
  (negb (truthy opts) && negb (truthy id) && nullish (field w this "container") = true
   /\ ContainerFs.__processArguments this opts id w = (w, Throw nullish_read))
  \/ (negb (truthy opts) && negb (truthy id) && nullish (field w this "container") = false
      /\ exists i, ContainerFs.__processArguments this opts id w
                   = (w, Normal (record opts i))).
Proof.
  unfold ContainerFs.__processArguments.
  destruct (truthy opts) eqn:Eo; cbn [negb andb].
  - right. split; [reflexivity|]. eexists. reflexivity.
  - destruct (String.eqb (typeof opts) "string" && negb (truthy id)) eqn:Et.
    + rewrite Eo. cbn [negb]. apply andb_true_iff in Et as [_ Et]. rewrite Et.
      unfold mbind, M_bind. rewrite GetV_ref.
      destruct (field w this "container") eqn:Ec; cbn;
        solve [ left; split; reflexivity
              | right; split; [reflexivity|]; eexists; reflexivity ].
    + destruct (truthy id) eqn:Ei; cbn [negb andb].
      * right. split; [reflexivity|]. eexists. reflexivity.
      * unfold mbind, M_bind. rewrite GetV_ref.
        destruct (field w this "container") eqn:Ec; cbn;
          solve [ left; split; reflexivity
                | right; split; [reflexivity|]; eexists; reflexivity ].
Qed.

(** ** The prologue shared by the operations *)

Lemma binary_prologue_throws {A} this args hb a (k : value * value -> M A) w e :
  helper_outcome hb a (logged w (ECall this "__processArguments" args)) e ->
  (r ← invoke this "__processArguments" args hb; destructure2 r ≫= k) w
  = (logged w (ECall this "__processArguments" args), Throw e).
Proof.
  intros H. unfold invoke, mbind, M_bind, emit. cbn.
  fold (logged w (ECall this "__processArguments" args)).
  destruct H as [[i [Hi ->]]|[Hi ->]]; rewrite Hi; reflexivity.
Qed.

Lemma resume_unary_record u this ρ a i w :
  resume_unary u this ρ (record a i) w = (w, Throw not_iterable).
Proof. destruct u; reflexivity. Qed.

Lemma unary_prologue_throws u this ρ args hb a w e :
  helper_outcome hb a (logged w (ECall this "__processArguments" args)) e ->
  (r ← invoke this "__processArguments" args hb; resume_unary u this ρ r) w
  = (logged w (ECall this "__processArguments" args), Throw e).
Proof.
  intros H. unfold invoke, mbind, M_bind, emit. cbn.
  fold (logged w (ECall this "__processArguments" args)).
  destruct H as [[i [Hi ->]]|[Hi ->]]; rewrite Hi; [|reflexivity].
  now rewrite resume_unary_record.
Qed.

Lemma helper_logged o this a b w ev e :
  helper_outcome (helper o this a b) a (logged w ev) e ->
  helper_outcome (helper o this a b) a w e.
Proof.
  unfold helper. destruct (on_ContainerFs o).
  - unfold helper_outcome, ContainerFs.__processArguments.
    destruct (negb (truthy a) && negb (truthy _)).
    + unfold mbind, M_bind. rewrite !GetV_ref, field_logged.
      destruct (field w this "container"); cbn;
        intros [[i [Hi ->]]|[Hi ->]]; try discriminate;
        solve [ right; split; reflexivity
              | left; eexists; split; [reflexivity|reflexivity] ].
    + cbn. intros [[i [Hi ->]]|[Hi ->]]; try discriminate.
      left. eexists. split; reflexivity.
  - unfold helper_outcome. rewrite !Container_helper_resolution, field_logged.
    intros [[i [Hi ->]]|[Hi ->]]; try discriminate.
    left. eexists. split; reflexivity.
Qed.

(** Every operation runs its class's helper on its own arguments, and ends
    as the helper's outcome dictates, with that call as its only event. *)
Lemma run_throws (o : operation) (this : nat) (a b : value) (w : world) :
  exists e,
    helper_outcome (helper o this a b) a w e
    /\ run o this a b w
       = (logged w (ECall this "__processArguments" (helper_args o a b)), Throw e).
Proof.
  set (ev := ECall this "__processArguments" (helper_args o a b)).
  assert (exists e, helper_outcome (helper o this a b) a (logged w ev) e) as [e He].
  { unfold helper. destruct (on_ContainerFs o).
    - apply ContainerFs_helper_outcome.
    - exists not_iterable. apply Container_helper_outcome. }
  exists e. split; [eapply helper_logged, He|].
  subst ev. revert He. unfold helper.
  destruct o as [o|o]; destruct o;
    cbn [run run_binary run_unary helper_args helper_second on_ContainerFs];
    intros He;
    first [ apply (binary_prologue_throws _ _ _ _ _ _ _ He)
          | apply (unary_prologue_throws FsInfo _ _ _ _ _ _ _ He)
          | apply (unary_prologue_throws Changes _ _ _ _ _ _ _ He)
          | apply (unary_prologue_throws Pause _ _ _ _ _ _ _ He)
          | apply (unary_prologue_throws Unpause _ _ _ _ _ _ _ He)
          | apply (unary_prologue_throws Wait _ _ _ _ _ _ _ He) ].
Qed.

(** The error is the one [failure] names. *)
Lemma run_fails (o : operation) (this : nat) (a b : value) (w : world) :
  run o this a b w
  = (logged w (ECall this "__processArguments" (helper_args o a b)),
     Throw (failure o this a b w)).
Proof.
  destruct (run_throws o this a b w) as [e [He ->]]. do 2 f_equal.
  unfold helper, failure in *. destruct (on_ContainerFs o); cbn [andb].
  - destruct (ContainerFs_helper_cases this a (helper_second o b) w)
      as [[-> Hh]|[-> [i Hh]]];
      destruct He as [[i' [Hi ->]]|[Hi ->]]; congruence.
  - destruct He as [[i [_ ->]]|[Hi _]]; [reflexivity|].
    rewrite Container_helper_resolution in Hi. discriminate.
Qed.

Lemma requests_logged_call {A} (m : M A) w this name args r :
  m w = (logged w (ECall this name args), r) -> requests m w = [].
Proof.
  intros H. unfold requests. rewrite H. cbn.
  now rewrite drop_app_length.
Qed.

Lemma run_factors (o : operation) (this : nat) (a b : value) :
  run o this a b
  = (r ← invoke this "__processArguments" (helper_args o a b) (helper o this a b);
     continue o this a r).
Proof. destruct o as [o|o]; destruct o; reflexivity. Qed.

(** ** Argument resolution *)

(** C1 (as stated, refuted). With the string ["abc"] as only argument the
    helper returns that string in the option slot too, so the resolved
    option bag is neither absent nor empty; with the empty string as only
    argument the resolved identifier is the stored one, not the argument. *)
Lemma C1_string_stays_in_option_slot :
  ~ (exists bag,
        snd (Container.__processArguments 0 (VStr "abc") VUndefined sample_world)
        = Normal (record bag (VStr "abc"))
        /\ absent_or_empty bag)
  /\ snd (Container.__processArguments 0 (VStr "") VUndefined sample_world)
     = Normal (record (VStr "") (VStr "abc")).
Proof.
  split; [|reflexivity].
  intros [bag [H [Hb|[Hb|Hb]]]]; subst bag; cbv in H; discriminate.
Qed.

(** C1 (amended). For a non-empty string [s] as first argument and no
    second argument, both helpers resolve the identifier to [s] and return
    the option slot unchanged, still holding [s]; with both arguments
    absent they resolve the identifier to the one the handle stores
    ([this.id] for a [Container], [this.container.id] for its
    [ContainerFs]) and the option slot stays [undefined]. *)
Theorem C1_argument_resolution
    (w : world) (this fs : nat) (s : string) :
  s <> "" ->
  field w fs "container" = VRef this ->
  Container.__processArguments this (VStr s) VUndefined w
    = (w, Normal (record (VStr s) (VStr s)))
  /\ ContainerFs.__processArguments fs (VStr s) VUndefined w
    = (w, Normal (record (VStr s) (VStr s)))
  /\ Container.__processArguments this VUndefined VUndefined w
    = (w, Normal (record VUndefined (field w this "id")))
  /\ ContainerFs.__processArguments fs VUndefined VUndefined w
    = (w, Normal (record VUndefined (field w this "id"))).
Proof.
  intros Hs Hfs.
  assert (String.eqb s "" = false) as Hne by now apply String.eqb_neq.
  assert ((container ← GetV (VRef fs) "container"; GetV container "id") w
          = (w, Normal (field w this "id"))) as Hstored.
  { unfold mbind, M_bind. rewrite GetV_ref, Hfs. reflexivity. }
  split; [|split; [|split]].
  - rewrite Container_helper_resolution.
    unfold resolved_id, takes_first. cbn. now rewrite Hne.
  - rewrite (ContainerFs_helper_resolution _ _ _ _ _ Hstored).
    unfold resolved_id, takes_first. cbn. now rewrite Hne.
  - now rewrite Container_helper_resolution.
  - now rewrite (ContainerFs_helper_resolution _ _ _ _ _ Hstored).
Qed.

(** C1 (amended), on the sample handle with the argument ["xyz"]. *)
Lemma C1_argument_resolution_witness :
  Container.__processArguments 0 (VStr "xyz") VUndefined sample_world
    = (sample_world, Normal (record (VStr "xyz") (VStr "xyz")))
  /\ ContainerFs.__processArguments 1 (VStr "xyz") VUndefined sample_world
    = (sample_world, Normal (record (VStr "xyz") (VStr "xyz")))
  /\ Container.__processArguments 0 VUndefined VUndefined sample_world
    = (sample_world, Normal (record VUndefined (field sample_world 0 "id")))
  /\ ContainerFs.__processArguments 1 VUndefined VUndefined sample_world
    = (sample_world, Normal (record VUndefined (field sample_world 0 "id"))).
Proof.
  apply (C1_argument_resolution sample_world 0 1 "xyz").
  - discriminate.
  - reflexivity.
Defined.

(** C6. Every operation that takes [(opts, id)] or [(id)] resolves its
    arguments in the same way: its first step is the call
    [this.__processArguments(...)] on its own arguments, the rest of its
    body sees only what that call returned, and the helper of either class
    is the one rule [resolve_with] (string test, then fallback to the
    identifier the handle stores); nothing is dialled before the call. *)
Theorem C6_one_resolution_rule
    (o : operation) (this : nat) (a b : value) (w : world) :
  helper o this a b = resolve_with (stored_id o this) a (helper_second o b)
  /\ run o this a b
     = (r ← invoke this "__processArguments" (helper_args o a b)
              (helper o this a b);
        continue o this a r)
  /\ exists e,
       run o this a b w
       = (logged w (ECall this "__processArguments" (helper_args o a b)), Throw e).
Proof.
  split; [|split].
  - unfold helper, stored_id. destruct (on_ContainerFs o); reflexivity.
  - apply run_factors.
  - destruct (run_throws o this a b w) as [e [_ He]]. eauto.
Qed.

(** C2. Every operation that resolves its arguments through
    [__processArguments] fails with a type error before it builds a call
    descriptor: the helper returns the record [{ opts, id }], which the
    array pattern at the call site cannot iterate (or, on a [ContainerFs]
    whose [container] is missing, the helper's own read fails); the store
    is untouched and no request reaches [dial]. *)
Theorem C2_resolving_operations_never_dial
    (o : operation) (this : nat) (a b : value) (w : world) :
  exists e,
    helper_outcome (helper o this a b) a w e
    /\ (e = not_iterable \/ (e = nullish_read /\ on_ContainerFs o = true))
    /\ snd (run o this a b w) = Throw e
    /\ store (fst (run o this a b w)) = store w
    /\ requests (run o this a b) w = [].
Proof.
  destruct (run_throws o this a b w) as [e [He Hrun]].
  exists e. split; [exact He|]. split; [|split; [|split]].
  - destruct He as [[i [_ ->]]|[Hthrow ->]]; [now left|right].
    split; [reflexivity|].
    unfold helper in Hthrow. destruct (on_ContainerFs o); [reflexivity|].
    rewrite Container_helper_resolution in Hthrow. discriminate.
  - now rewrite Hrun.
  - now rewrite Hrun.
  - eapply requests_logged_call, Hrun.
Qed.

(** ** Requests *)

Lemma requests_new_Promise this c cb w :
  requests (new_Promise this c cb) w
  = match field w this "modem" with VModem _ => [c] | _ => [] end.
Proof.
  unfold requests, new_Promise, mbind, M_bind. rewrite GetV_ref.
  destruct (field w this "modem"); cbn;
    rewrite ?drop_app_length, ?drop_all; reflexivity.
Qed.

Lemma new_Promise_store this c cb w :
  store (fst (new_Promise this c cb w)) = store w.
Proof.
  unfold new_Promise, mbind, M_bind. rewrite GetV_ref.
  destruct (field w this "modem"); reflexivity.
Qed.

(** ** Reading the streaming flag *)

Lemma pretty_N_char_digit x : digit (pretty_N_char x) = true.
Proof.
  unfold pretty_N_char. destruct x as [|p]; [reflexivity|].
  do 4 (try destruct p as [p|p|]); reflexivity.
Qed.

Lemma pretty_N_go_numeral x s : numeral s = true -> numeral (pretty_N_go x s) = true.
Proof.
  revert s. induction (N.lt_wf_0 x) as [x _ IH]; intros s Hs.
  destruct (decide (x = 0%N)) as [->|Hx].
  - now rewrite pretty_N_go_0.
  - rewrite pretty_N_go_step by lia. apply IH; [apply N.div_lt; lia|].
    cbn. now rewrite pretty_N_char_digit.
Qed.

Lemma pretty_nat_numeral (i : nat) : numeral (pretty i) = true.
Proof.
  unfold pretty, pretty_nat, pretty, pretty_N.
  destruct (decide _); [reflexivity|]. now apply pretty_N_go_numeral.
Qed.

(** A name that is not a numeral is no index of an array or a string. *)
Lemma index_get_not_numeral k i l : numeral k = false -> index_get k i l = VUndefined.
Proof.
  intros Hk. revert i. induction l as [|x l IH]; intros i; cbn; [reflexivity|].
  destruct (String.eqb k (pretty i)) eqn:E; [|apply IH].
  apply String.eqb_eq in E. subst k. now rewrite pretty_nat_numeral in Hk.
Qed.

Lemma GetV_stream opts w :
  nullish opts = false ->
  GetV opts "stream" w = (w, Normal (stream_flag w opts)).
Proof.
  destruct opts; try discriminate; intros _; try reflexivity.
  - cbn. now rewrite index_get_not_numeral.
  - cbn. now rewrite index_get_not_numeral.
Qed.

(** The callback of [export], case by case. *)
Lemma export_callback_cases opts err res w :
  Container.export_callback opts err res w
  = if truthy err then (w, Normal (Settled (Reject err)))
    else if nullish opts then (w, Throw nullish_read)
    else if truthy (stream_flag w opts) then (w, Normal (Settled (Resolve res)))
    else match res with
         | VStream _ => (w, Normal (Subscribed res []))
         | VUndefined | VNull => (w, Throw nullish_read)
         | _ => (w, Throw (not_a_function "tarStream.on"))
         end.
Proof.
  unfold Container.export_callback. destruct (truthy err); [reflexivity|].
  destruct (nullish opts) eqn:En.
  - destruct opts; try discriminate; reflexivity.
  - unfold mbind, M_bind. rewrite (GetV_stream _ _ En).
    destruct (truthy (stream_flag w opts)); [reflexivity|].
    destruct res; reflexivity.
Qed.

(** C9. For every option bag, [create] builds the descriptor of [list] but
    for the status table: path ['/containers/json'], method ['GET'], the
    same options; every request [create] hands to [dial] is that descriptor,
    so none is a POST, and it reaches [dial] exactly when that of [list]
    does.  The callbacks adapt a reply differently: on an empty array
    [list] resolves with an empty array, [create] with a new handle. *)
Theorem C9_create_dials_the_list_endpoint
    (this : nat) (opts : value) (w : world) :
  path (Container.create_call opts) = "/containers/json"
  /\ method (Container.create_call opts) = "GET"
  /\ Container.create_call opts
     = mkCall (path (Container.list_call opts)) (method (Container.list_call opts))
              (options (Container.list_call opts))
              (statusCodes (Container.create_call opts))
  /\ statusCodes (Container.create_call opts)
     <> statusCodes (Container.list_call opts)
  /\ Forall (fun c => c = Container.create_call opts /\ method c <> "POST")
            (requests (Container.create this opts) w)
  /\ map (fun c => (path c, method c, options c))
         (requests (Container.create this opts) w)
     = map (fun c => (path c, method c, options c))
           (requests (Container.list this opts) w)
  /\ snd (Container.create_callback 0 VUndefined (VArr []) sample_world)
     <> snd (Container.list_callback 0 VUndefined (VArr []) sample_world).
Proof.
  split; [reflexivity|]. split; [reflexivity|]. split; [reflexivity|].
  split; [discriminate|].
  unfold Container.create, Container.list. rewrite !requests_new_Promise.
  split; [|split].
  - destruct (field w this "modem"); repeat constructor; discriminate.
  - now destruct (field w this "modem").
  - vm_compute. discriminate.
Qed.

(** C10 (as stated, refuted). With no option bag the two operations part
    without any buffering: for the resolved [(undefined, "abc")] both hand
    [dial] the same descriptor, but on a reply without error that carries
    a stream the callback of [stats] resolves with the stream, while that
    of [export] throws on reading [opts.stream] and leaves the promise
    pending, although the stream ends. *)
Lemma C10_callbacks_part_without_option_bag :
  Container.stats_resume 0 VUndefined (VStr "abc") sample_world
  = (logged sample_world (EDial 0 (Container.export_call VUndefined (VStr "abc"))),
     Normal (mkPromise Pending (Some resolve_with_result)))
  /\ Container.export_resume 0 VUndefined (VStr "abc") sample_world
     = (logged sample_world (EDial 0 (Container.export_call VUndefined (VStr "abc"))),
        Normal (mkPromise Pending (Some (Container.export_callback VUndefined))))
  /\ settle_all Pending
       (settlements (snd (resolve_with_result VUndefined (VStream 0) sample_world))
                    [Data "x"; End_])
     = Fulfilled (VStream 0)
  /\ Container.export_callback VUndefined VUndefined (VStream 0) sample_world
     = (sample_world, Throw nullish_read)
  /\ settle_all Pending
       (settlements
          (snd (Container.export_callback VUndefined VUndefined (VStream 0)
                  sample_world))
          [Data "x"; End_])
     = Pending.
Proof. repeat split. Qed.

(** C10 (amended). For every resolved [(opts, id)], [stats] builds the
    descriptor of [export]: path [`/containers/${id}/export`], method
    ['GET'] and the same status table; no path of [stats] names a stats
    endpoint.  Each operation is its helper call, the array pattern and
    then one [dial] of that descriptor, so both hand [dial] the same
    requests (none when called, since the array pattern throws first).
    They differ in the callback they pass: that of [stats]
    rejects with the error or resolves with the result; that of [export]
    does the same when there is an error or when [opts.stream] is truthy,
    throws when [opts] is [undefined] or [null], and otherwise puts its
    listeners on the stream to buffer it (throwing when the result is no
    stream). *)
Theorem C10_stats_dials_the_export_endpoint
    (this : nat) (opts id a b err res : value) (w : world) :
  Container.stats_call opts id = Container.export_call opts id
  /\ path (Container.stats_call opts id)
     = "/containers/" +:+ ToString id +:+ "/export"
  /\ method (Container.stats_call opts id) = "GET"
  /\ statusCodes (Container.stats_call opts id)
     = [(200, VBool true); (404, VStr "no such container");
        (500, VStr "server error")]%Z
  /\ Container.stats this a b
     = (r ← invoke this "__processArguments" [a; b]
              (Container.__processArguments this a b);
        '(opts, id) ← destructure2 r;
        new_Promise this (Container.stats_call opts id) resolve_with_result)
  /\ Container.export this a b
     = (r ← invoke this "__processArguments" [a; b]
              (Container.__processArguments this a b);
        '(opts, id) ← destructure2 r;
        new_Promise this (Container.export_call opts id)
                    (Container.export_callback opts))
  /\ requests (new_Promise this (Container.stats_call opts id) resolve_with_result) w
     = match field w this "modem" with
       | VModem _ => [Container.export_call opts id]
       | _ => []
       end
  /\ requests (new_Promise this (Container.export_call opts id)
                           (Container.export_callback opts)) w
     = match field w this "modem" with
       | VModem _ => [Container.export_call opts id]
       | _ => []
       end
  /\ requests (Container.stats this a b) w = requests (Container.export this a b) w
  /\ resolve_with_result err res w
     = (if truthy err then (w, Normal (Settled (Reject err)))
        else (w, Normal (Settled (Resolve res))))
  /\ Container.export_callback opts err res w
     = (if truthy err then resolve_with_result err res w
        else if nullish opts then (w, Throw nullish_read)
        else if truthy (stream_flag w opts) then resolve_with_result err res w
        else match res with
             | VStream _ => (w, Normal (Subscribed res []))
             | VUndefined | VNull => (w, Throw nullish_read)
             | _ => (w, Throw (not_a_function "tarStream.on"))
             end).
Proof.
  split; [reflexivity|]. split; [reflexivity|]. split; [reflexivity|].
  split; [reflexivity|]. split; [reflexivity|]. split; [reflexivity|].
  split; [apply requests_new_Promise|]. split; [apply requests_new_Promise|].
  split; [|split].
  - pose proof (run_fails (Binary Stats) this a b w) as H1.
    pose proof (run_fails (Binary Export) this a b w) as H2.
    cbn [run run_binary] in H1, H2.
    now rewrite (requests_logged_call _ _ _ _ _ _ H1),
                (requests_logged_call _ _ _ _ _ _ H2).
  - unfold resolve_with_result. now destruct (truthy err).
  - rewrite export_callback_cases. unfold resolve_with_result.
    now destruct (truthy err).
Qed.

(** ** The unary operations *)

(** C3 (as stated, refuted). The call [fs.info("abc")] ends with the type
    error of destructuring the helper's record: it raises no reference
    error, neither [_] nor [opts] is evaluated in it. *)
Lemma C3_info_ends_before_its_free_names :
  snd (ContainerFs.info 1 (VStr "abc") sample_world) = Throw not_iterable
  /\ ~ (exists x, snd (ContainerFs.info 1 (VStr "abc") sample_world)
                  = Throw (ReferenceError x)).
Proof.
  split; [reflexivity|]. intros [x H]. cbv in H. discriminate.
Qed.

(** C3 (amended). In [info], [changes], [pause], [unpause] and [wait] the
    names [opts] and [_] are bound in no enclosing scope, and no call
    dispatches a request; every call ends earlier, before either name is
    evaluated, with a type error: that of array-destructuring the helper's
    record, except for [info] called with no identifier, or a falsy one,
    on a [ContainerFs] whose [container] is [undefined] or [null], where
    the helper's own read of [this.container.id] fails first.  The unbound names are
    latent: were the helper's result an array, the assignment to [_] would
    throw a reference error, again before any request. *)
Theorem C3_free_names_are_latent
    (u : unary_operation) (this : nat) (id : value) (w : world) :
  env_get (method_env [("id", id)]) "opts" = None
  /\ env_get (method_env [("id", id)]) "_" = None
  /\ run_unary u this id w
     = (logged w (ECall this "__processArguments" [id]),
        Throw (if on_ContainerFs (Unary u) && negb (truthy id)
                  && nullish (field w this "container")
               then nullish_read
               else not_iterable))
  /\ requests (run_unary u this id) w = []
  /\ (forall elems,
        resume_unary u this (method_env [("id", id)]) (VArr elems) w
        = (w, Throw (ReferenceError "_"))).
Proof.
  split; [reflexivity|]. split; [reflexivity|].
  pose proof (run_fails (Unary u) this id VUndefined w) as Hrun.
  unfold failure in Hrun.
  cbn [run helper_args helper_second truthy negb] in Hrun.
  rewrite andb_true_r in Hrun.
  split; [exact Hrun|]. split.
  - eapply requests_logged_call, Hrun.
  - intros elems. destruct u; reflexivity.
Qed.

(** ** Replies *)

Lemma callbacks_reject_an_error this err res w :
  truthy err = true ->
  Container.list_callback this err res w = (w, Normal (Settled (Reject err)))
  /\ Container.create_callback this err res w = (w, Normal (Settled (Reject err)))
  /\ forall o opts id,
       binary_callback o this opts id err res w = (w, Normal (Settled (Reject err))).
Proof.
  intros H. split; [|split].
  - unfold Container.list_callback. now rewrite H.
  - unfold Container.create_callback. now rewrite H.
  - intros o opts id.
    destruct o; cbn [binary_callback];
      unfold Container.inspect_callback, Container.export_callback,
        resolve_with_result, resolve_with_nothing;
      now rewrite H.
Qed.

(** None of the operations that call the helper returns a promise. *)
Lemma no_operation_returns_a_promise o this a b w p :
  snd (run o this a b w) <> Normal p.
Proof.
  destruct (run_throws o this a b w) as [e [_ H]]. rewrite H. discriminate.
Qed.

(** C4 (the code at the failing input). [container.start()] on a handle
    throws at the destructuring of the helper's record: the caller gets an
    exception instead of a promise, so there is no promise to settle when
    the modem would answer; nothing was dialled. *)
Theorem C4_start_returns_no_promise :
  Container.start 0 VUndefined VUndefined sample_world
  = (logged sample_world (ECall 0 "__processArguments" [VUndefined; VUndefined]),
     Throw not_iterable)
  /\ requests (Container.start 0 VUndefined VUndefined) sample_world = [].
Proof. split; reflexivity. Qed.

(** ** Streaming and buffering in [export] *)

Lemma deliver_data res chunks :
  deliver res (map Data chunks ++ [End_])%list
  = [Resolve (VStr (String.concat "" (res ++ chunks)))].
Proof.
  revert res. induction chunks as [|c chunks IH]; intros res; cbn.
  - now rewrite app_nil_r.
  - rewrite IH. unfold Container.export_on_data. now rewrite <- app_assoc.
Qed.

(** What the callback of [export] does once [opts] is an object: with the
    flag set it resolves with the stream itself and reads nothing from it;
    without the flag it listens, and resolves with the joined chunks when
    the stream ends. *)
Lemma export_callback_branches ps s chunks w :
  (truthy (prop_get ps "stream") = true ->
   Container.export_callback (VObj ps) VUndefined (VStream s) w
   = (w, Normal (Settled (Resolve (VStream s)))))
  /\ (truthy (prop_get ps "stream") = false ->
      Container.export_callback (VObj ps) VUndefined (VStream s) w
      = (w, Normal (Subscribed (VStream s) []))
      /\ settlements (snd (Container.export_callback (VObj ps) VUndefined (VStream s) w))
                     (map Data chunks ++ [End_])%list
         = [Resolve (VStr (String.concat "" chunks))]).
Proof.
  unfold Container.export_callback, mbind, M_bind. cbn.
  split; intros ->; [reflexivity|]. split; [reflexivity|].
  cbn. now rewrite deliver_data.
Qed.

(** Without any option bag the callback of [export] throws on reading the
    flag. *)
Lemma export_callback_without_options s w :
  Container.export_callback VUndefined VUndefined (VStream s) w
  = (w, Throw nullish_read).
Proof. reflexivity. Qed.

(** C5 (the code at the failing input). [container.export({stream: true})]
    throws at the destructuring of the helper's record, as it does without
    the flag: no promise is returned and nothing is dialled, so the call
    resolves neither with a stream nor with buffered text. *)
Theorem C5_export_throws_with_or_without_flag :
  Container.export 0 (VObj [("stream", VBool true)]) VUndefined sample_world
  = (logged sample_world
       (ECall 0 "__processArguments" [VObj [("stream", VBool true)]; VUndefined]),
     Throw not_iterable)
  /\ Container.export 0 (VObj []) VUndefined sample_world
     = (logged sample_world (ECall 0 "__processArguments" [VObj []; VUndefined]),
        Throw not_iterable).
Proof. split; reflexivity. Qed.

(** ** The store *)

Lemma prop_get_set_eq o k v : prop_get (prop_set o k v) k = v.
Proof.
  induction o as [|[k' v'] o IH]; cbn.
  - now rewrite String.eqb_refl.
  - destruct (String.eqb k' k) eqn:E; cbn; now rewrite E.
Qed.

Lemma prop_get_set_ne o k k' v :
  k <> k' -> prop_get (prop_set o k v) k' = prop_get o k'.
Proof.
  intros Hne. induction o as [|[k0 v0] o IH]; cbn.
  - apply String.eqb_neq in Hne. now rewrite Hne.
  - destruct (String.eqb k0 k) eqn:E; cbn.
    + apply String.eqb_eq in E. subst k0.
      apply String.eqb_neq in Hne. now rewrite Hne.
    + now rewrite IH.
Qed.

Lemma own_set_property_ne i k k' v :
  k <> k' -> prop_get (own (set_property i k v)) k' = prop_get (own i) k'.
Proof.
  intros Hne. unfold set_property.
  destruct (_ && _); [destruct (object_or_null v); reflexivity|].
  now apply prop_get_set_ne.
Qed.

Lemma own_set_property_eq i k v :
  k <> "__proto__" -> prop_get (own (set_property i k v)) k = v.
Proof.
  intros Hne. unfold set_property. apply String.eqb_neq in Hne. rewrite Hne.
  apply prop_get_set_eq.
Qed.

Lemma proto_set_property_ne i k v :
  k <> "__proto__" -> proto (set_property i k v) = proto i.
Proof.
  intros Hne. unfold set_property. apply String.eqb_neq in Hne. now rewrite Hne.
Qed.

Lemma has_key_prop_set_ne o k k' v :
  k <> k' -> has_key (prop_set o k v) k' = has_key o k'.
Proof.
  intros Hne. unfold has_key. induction o as [|[k0 v0] o IH]; cbn.
  - apply String.eqb_neq in Hne. now rewrite Hne.
  - destruct (String.eqb k0 k) eqn:E; cbn; [reflexivity|]. now rewrite IH.
Qed.

Lemma set_property_other i k v :
  k <> "__proto__" ->
  set_property i k v = mkInstance (prop_set (own i) k v) (proto i).
Proof.
  intros Hne. unfold set_property. apply String.eqb_neq in Hne. now rewrite Hne.
Qed.

Lemma prop_get_merge_other i ps k :
  k ∉ keys ps -> prop_get (own (merge i ps)) k = prop_get (own i) k.
Proof.
  revert i. induction ps as [|[k' v'] ps IH]; intros i Hk; [reflexivity|].
  cbn in Hk. apply not_elem_of_cons in Hk as [Hne Hk].
  cbn. fold (merge (set_property i k' v') ps). rewrite IH by exact Hk.
  apply own_set_property_ne. congruence.
Qed.

Lemma prop_get_merge_in i ps k v :
  NoDup (keys ps) -> (k, v) ∈ ps -> k <> "__proto__" ->
  prop_get (own (merge i ps)) k = v.
Proof.
  revert i. induction ps as [|[k' v'] ps IH]; intros i Hnd Hin Hk.
  - now apply elem_of_nil in Hin.
  - cbn in Hnd. apply NoDup_cons in Hnd as [Hk' Hnd].
    cbn. fold (merge (set_property i k' v') ps).
    apply elem_of_cons in Hin as [[= -> ->]|Hin].
    + rewrite prop_get_merge_other by exact Hk'. now apply own_set_property_eq.
    + now apply IH.
Qed.

Lemma proto_merge_other i ps :
  "__proto__" ∉ keys ps -> proto (merge i ps) = proto i.
Proof.
  revert i. induction ps as [|[k' v'] ps IH]; intros i Hk; [reflexivity|].
  cbn in Hk. apply not_elem_of_cons in Hk as [Hne Hk].
  cbn. fold (merge (set_property i k' v') ps). rewrite IH by exact Hk.
  apply proto_set_property_ne. congruence.
Qed.

Lemma has_key_merge_other i ps k :
  k ∉ keys ps -> "__proto__" ∉ keys ps ->
  has_key (own (merge i ps)) k = has_key (own i) k.
Proof.
  revert i. induction ps as [|[k' v'] ps IH]; intros i Hk Hp; [reflexivity|].
  cbn in Hk, Hp. apply not_elem_of_cons in Hk as [Hne Hk].
  apply not_elem_of_cons in Hp as [Hnp Hp].
  cbn. fold (merge (set_property i k' v') ps). rewrite IH by assumption.
  rewrite set_property_other by congruence. cbn [own].
  apply has_key_prop_set_ne. congruence.
Qed.

Lemma has_key_merge_proto c o ps :
  has_key o "__proto__" = false ->
  NoDup (keys ps) ->
  has_key (own (merge (mkInstance o (ClassPrototype c)) ps)) "__proto__" = false.
Proof.
  revert o. induction ps as [|[k' v'] ps IH]; intros o Hown Hnd; [exact Hown|].
  cbn in Hnd. apply NoDup_cons in Hnd as [Hk' Hnd].
  cbn. fold (merge (set_property (mkInstance o (ClassPrototype c)) k' v') ps).
  destruct (String.eqb k' "__proto__") eqn:E.
  - apply String.eqb_eq in E. subst k'.
    rewrite has_key_merge_other by exact Hk'.
    unfold set_property. cbn [own proto reaches_proto_setter].
    rewrite Hown. cbn [String.eqb Ascii.eqb Bool.eqb negb andb].
    now destruct (object_or_null v').
  - apply String.eqb_neq in E. rewrite set_property_other by exact E. cbn [own proto].
    apply IH; [|exact Hnd]. rewrite has_key_prop_set_ne; [exact Hown|exact E].
Qed.

Lemma proto_merge_in c o ps v :
  has_key o "__proto__" = false ->
  NoDup (keys ps) ->
  ("__proto__", v) ∈ ps ->
  proto (merge (mkInstance o (ClassPrototype c)) ps)
  = if object_or_null v then Replaced v else ClassPrototype c.
Proof.
  revert o. induction ps as [|[k' v'] ps IH]; intros o Hown Hnd Hin.
  - now apply elem_of_nil in Hin.
  - cbn in Hnd. apply NoDup_cons in Hnd as [Hk' Hnd].
    cbn. fold (merge (set_property (mkInstance o (ClassPrototype c)) k' v') ps).
    apply elem_of_cons in Hin as [[= <- <-]|Hin].
    + rewrite proto_merge_other by exact Hk'.
      unfold set_property. cbn [own proto reaches_proto_setter].
      rewrite Hown. cbn [String.eqb Ascii.eqb Bool.eqb negb andb].
      now destruct (object_or_null v).
    + assert (k' <> "__proto__") as Hne.
      { intros ->. apply Hk'. apply list_elem_of_fmap. now exists ("__proto__", v). }
      rewrite set_property_other by exact Hne. cbn [own proto].
      apply IH; [|exact Hnd|exact Hin].
      rewrite has_key_prop_set_ne; [exact Hown|exact Hne].
Qed.

Lemma prop_get_no_key o k : has_key o k = false -> prop_get o k = VUndefined.
Proof.
  unfold has_key. induction o as [|[k0 v0] o IH]; cbn; [reflexivity|].
  destruct (String.eqb k0 k); [discriminate|exact IH].
Qed.

Lemma has_key_prop_set_mono o k k' v :
  has_key o k' = true -> has_key (prop_set o k v) k' = true.
Proof.
  unfold has_key. induction o as [|[k0 v0] o IH]; cbn; [discriminate|].
  destruct (String.eqb k0 k) eqn:E; cbn; [tauto|].
  destruct (String.eqb k0 k'); cbn; [reflexivity|exact IH].
Qed.

Lemma has_key_prop_set o k v : has_key (prop_set o k v) k = true.
Proof.
  unfold has_key. induction o as [|[k0 v0] o IH]; cbn.
  - now rewrite String.eqb_refl.
  - destruct (String.eqb k0 k) eqn:E; cbn; rewrite E; [reflexivity|exact IH].
Qed.

Lemma has_key_set_property_mono i k k' v :
  has_key (own i) k' = true -> has_key (own (set_property i k v)) k' = true.
Proof.
  intros H. unfold set_property.
  destruct (_ && _); [now destruct (object_or_null v)|].
  now apply has_key_prop_set_mono.
Qed.

Lemma has_key_merge_mono i ps k :
  has_key (own i) k = true -> has_key (own (merge i ps)) k = true.
Proof.
  revert i. induction ps as [|[k' v'] ps IH]; intros i H; [exact H|].
  cbn. fold (merge (set_property i k' v') ps).
  now apply IH, has_key_set_property_mono.
Qed.

Lemma has_key_merge_in i ps k v :
  (k, v) ∈ ps -> k <> "__proto__" -> has_key (own (merge i ps)) k = true.
Proof.
  revert i. induction ps as [|[k' v'] ps IH]; intros i Hin Hk.
  - now apply elem_of_nil in Hin.
  - cbn. fold (merge (set_property i k' v') ps).
    apply elem_of_cons in Hin as [[= <- <-]|Hin]; [|now apply IH].
    apply has_key_merge_mono. rewrite set_property_other by exact Hk.
    apply has_key_prop_set.
Qed.

(** A name the instance owns is read on the instance itself, and so is
    every name on an instance that has the prototype of its class. *)
Lemma field_own w l i k :
  store w !! l = Some i -> has_key (own i) k = true ->
  field w l k = prop_get (own i) k.
Proof. intros Hl Hk. unfold field. now rewrite Hl, Hk. Qed.

Lemma field_class w l i c k :
  store w !! l = Some i -> proto i = ClassPrototype c ->
  field w l k = prop_get (own i) k.
Proof.
  intros Hl Hp. unfold field. rewrite Hl, Hp.
  destruct (has_key (own i) k) eqn:E; [reflexivity|].
  now rewrite prop_get_no_key.
Qed.

Lemma alter_at_length {A} (f : A -> A) (l1 l2 : list A) :
  alter f (length l1) (l1 ++ l2)%list = (l1 ++ alter f 0 l2)%list.
Proof. rewrite <- (Nat.add_0_r (length l1)) at 1. apply alter_app_r. Qed.

Lemma assign_props_spec target ps w :
  assign_props target ps w
  = (mkWorld (alter (fun i => merge i ps) target (store w)) (log w), Normal tt).
Proof.
  revert w. induction ps as [|[k v] ps IH]; intros w; cbn.
  - rewrite list_alter_id by reflexivity. now destruct w.
  - unfold mbind, M_bind, SetV. rewrite IH. cbn.
    now rewrite list_alter_alter_eq.
Qed.

Lemma constructor_spec modem id w :
  Container.constructor modem id w
  = (mkWorld (store w ++
                [mkInstance [("modem", modem); ("id", id);
                             ("fs", VRef (S (length (store w))))]
                            (ClassPrototype "Container");
                 mkInstance [("modem", modem); ("container", VRef (length (store w)))]
                            (ClassPrototype "ContainerFs")])
             (log w),
     Normal (length (store w))).
Proof.
  unfold Container.constructor, ContainerFs.constructor, alloc, SetV,
    mbind, M_bind, mret, M_ret.
  cbn. f_equal. f_equal.
  rewrite !length_alter, !length_app. cbn.
  rewrite !alter_at_length. cbn.
  rewrite <- app_assoc. cbn.
  rewrite !alter_app_r, alter_at_length. cbn.
  now rewrite Nat.add_1_r.
Qed.

(** [new Container(this.modem, conf.Id)] followed by
    [Object.assign(container, conf)], on a body that is a plain object. *)
Lemma build_handle_spec this ps w :
  (modem ← GetV (VRef this) "modem";
   Id ← GetV (VObj ps) "Id";
   container ← Container.constructor modem Id;
   Object_assign container (VObj ps)) w
  = (mkWorld (store w ++ new_handle (field w this "modem") ps (length (store w)))
             (log w),
     Normal (VRef (length (store w)))).
Proof.
  unfold mbind, M_bind. rewrite GetV_ref. cbn [GetV mret M_ret].
  rewrite constructor_spec.
  unfold Object_assign, mbind, M_bind, get_world. cbn [own_props store].
  rewrite assign_props_spec. cbn [store log].
  now rewrite alter_at_length.
Qed.

Lemma create_callback_spec this err ps w :
  truthy err = false ->
  Container.create_callback this err (VObj ps) w
  = (mkWorld (store w ++ new_handle (field w this "modem") ps (length (store w)))
             (log w),
     Normal (Settled (Resolve (VRef (length (store w)))))).
Proof.
  intros Herr. unfold Container.create_callback. rewrite Herr.
  pose proof (build_handle_spec this ps w) as H.
  unfold mbind, M_bind in H |- *.
  destruct (GetV (VRef this) "modem" w) as [w1 [m|e]]; [|discriminate].
  destruct (GetV (VObj ps) "Id" w1) as [w2 [Id|e]]; [|discriminate].
  destruct (Container.constructor m Id w2) as [w3 [c|e]]; [|discriminate].
  destruct (Object_assign c (VObj ps) w3) as [w4 [h|e]]; [|discriminate].
  now injection H as -> ->.
Qed.

Lemma extends_refl w : extends w w.
Proof. split; [exists []; now rewrite app_nil_r|reflexivity]. Qed.

Lemma extends_trans w1 w2 w3 : extends w1 w2 -> extends w2 w3 -> extends w1 w3.
Proof.
  intros [[e1 H1] L1] [[e2 H2] L2]. split; [|congruence].
  exists (e1 ++ e2)%list. now rewrite H2, H1, app_assoc.
Qed.

Lemma extends_field w w' l k :
  extends w w' -> l < length (store w) -> field w' l k = field w l k.
Proof.
  intros [[e He] _] Hl. unfold field. now rewrite He, lookup_app_l.
Qed.

Create HintDb frame.
#[local] Hint Resolve extends_refl extends_trans : frame.

Lemma constructor_extends modem id w :
  extends w (fst (Container.constructor modem id w))
  /\ snd (Container.constructor modem id w) = Normal (length (store w)).
Proof. rewrite constructor_spec. split; [split; cbn; eauto|reflexivity]. Qed.

Lemma Object_assign_extends w0 target source w :
  extends w0 w -> length (store w0) <= target ->
  extends w0 (fst (Object_assign target source w))
  /\ snd (Object_assign target source w) = Normal (VRef target).
Proof.
  intros [[e He] Hl] Ht. unfold Object_assign, mbind, M_bind, get_world.
  rewrite assign_props_spec. cbn. split; [|reflexivity]. split; [|exact Hl].
  cbn. rewrite He, alter_app_r_alt by exact Ht. eauto.
Qed.

Lemma build_handle_extends this conf w :
  extends w (fst ((modem ← GetV (VRef this) "modem";
                   Id ← GetV conf "Id";
                   container ← Container.constructor modem Id;
                   Object_assign container conf) w)).
Proof.
  unfold mbind, M_bind. rewrite GetV_ref.
  destruct (GetV conf "Id" w) as [w1 [Id|e]] eqn:E;
    pose proof (GetV_world conf "Id" w) as Hw; rewrite E in Hw; cbn in Hw; subst w1;
    [|apply extends_refl].
  destruct (constructor_extends (field w this "modem") Id w) as [Hext Hres].
  destruct (Container.constructor _ Id w) as [w2 r]. cbn in Hext, Hres. subst r.
  destruct (Object_assign_extends w _ conf w2 Hext (le_n _)) as [H _].
  destruct (Object_assign _ conf w2) as [w3 [r|e]]; exact H.
Qed.

Lemma array_map_extends (f : value -> M value) confs w :
  (forall x w, extends w (fst (f x w))) ->
  extends w (fst (array_map f confs w)).
Proof.
  intros Hf. revert w. induction confs as [|x confs IH]; intros w; cbn.
  - apply extends_refl.
  - unfold mbind, M_bind. specialize (Hf x w).
    destruct (f x w) as [w1 [y|e]]; cbn in Hf; [|exact Hf].
    specialize (IH w1).
    destruct (array_map f confs w1) as [w2 [ys|e]]; cbn in IH |- *;
      eauto with frame.
Qed.

(** Whatever the modem replies, the callbacks of [list], [create] and
    [inspect] leave every instance that existed before the reply as it
    was: they write to the instances they construct only. *)
Lemma callbacks_extend_the_store this id err res w :
  extends w (fst (Container.list_callback this err res w))
  /\ extends w (fst (Container.create_callback this err res w))
  /\ extends w (fst (Container.inspect_callback this id err res w)).
Proof.
  split; [|split].
  - unfold Container.list_callback.
    destruct (truthy err); [apply extends_refl|].
    destruct res; try apply extends_refl.
    pose proof (array_map_extends
      (fun conf => modem ← GetV (VRef this) "modem";
                   Id ← GetV conf "Id";
                   container ← Container.constructor modem Id;
                   Object_assign container conf) elems w
      (build_handle_extends this)) as H.
    unfold mbind at 1, M_bind at 1.
    destruct (array_map _ elems w) as [w1 [hs|e]]; exact H.
  - unfold Container.create_callback.
    destruct (truthy err); [apply extends_refl|].
    pose proof (build_handle_extends this res w) as H.
    unfold mbind, M_bind in *.
    destruct (GetV (VRef this) "modem" w) as [w1 [m|e]]; [|exact H].
    destruct (GetV res "Id" w1) as [w2 [Id|e]]; [|exact H].
    destruct (Container.constructor m Id w2) as [w3 [c|e]]; [|exact H].
    destruct (Object_assign c res w3) as [w4 [h|e]]; exact H.
  - unfold Container.inspect_callback.
    destruct (truthy err); [apply extends_refl|].
    unfold mbind, M_bind. rewrite GetV_ref.
    destruct (constructor_extends (field w this "modem") id w) as [Hext Hres].
    destruct (Container.constructor _ id w) as [w2 r]. cbn in Hext, Hres. subst r.
    destruct (Object_assign_extends w _ res w2 Hext (le_n _)) as [H _].
    destruct (Object_assign _ res w2) as [w3 [r|e]]; exact H.
Qed.

(** In particular the fields of the handle the operation was called on,
    and of every other existing instance, read as before. *)
Lemma callbacks_keep_the_handle this id err res w l k :
  l < length (store w) ->
  field (fst (Container.list_callback this err res w)) l k = field w l k
  /\ field (fst (Container.create_callback this err res w)) l k = field w l k
  /\ field (fst (Container.inspect_callback this id err res w)) l k = field w l k.
Proof.
  intros Hl.
  destruct (callbacks_extend_the_store this id err res w) as [H1 [H2 H3]].
  split; [|split]; now apply extends_field.
Qed.

(** [list] and [create] themselves write nothing to the store. *)
Lemma list_create_keep_the_store this opts w :
  store (fst (Container.list this opts w)) = store w
  /\ store (fst (Container.create this opts w)) = store w.
Proof. split; apply new_Promise_store. Qed.

Lemma array_map_build this pss w :
  this < length (store w) ->
  array_map (fun conf =>
               modem ← GetV (VRef this) "modem";
               Id ← GetV conf "Id";
               container ← Container.constructor modem Id;
               Object_assign container conf) (map VObj pss) w
  = (mkWorld (store w ++ built (field w this "modem") pss (length (store w)))
             (log w),
     Normal (addresses pss (length (store w)))).
Proof.
  revert w. induction pss as [|ps pss IH]; intros w Hthis.
  - cbn. rewrite app_nil_r. now destruct w.
  - cbn [map array_map]. unfold mbind at 1, M_bind at 1.
    rewrite build_handle_spec.
    unfold mbind at 1, M_bind at 1.
    rewrite IH by (cbn; rewrite length_app; lia).
    cbn [store log built addresses].
    assert (forall extra,
              field (mkWorld (store w ++ extra) (log w)) this "modem"
              = field w this "modem") as ->
      by (intros extra; unfold field; cbn [store]; now rewrite lookup_app_l).
    rewrite length_app. cbn [new_handle length].
    rewrite <- app_assoc, Nat.add_comm. reflexivity.
Qed.

(** A successful reply to [list] whose body is an array of plain objects
    resolves the promise with one newly built handle per object. *)
Lemma list_callback_spec this err pss w :
  truthy err = false ->
  this < length (store w) ->
  Container.list_callback this err (VArr (map VObj pss)) w
  = (mkWorld (store w ++ built (field w this "modem") pss (length (store w)))
             (log w),
     Normal (Settled (Resolve (VArr (addresses pss (length (store w))))))).
Proof.
  intros Herr Hthis. unfold Container.list_callback. rewrite Herr.
  unfold mbind at 1, M_bind at 1. now rewrite array_map_build.
Qed.

Lemma addresses_fresh pss n h :
  In h (addresses pss n) -> exists l, h = VRef l /\ n <= l.
Proof.
  revert n. induction pss as [|ps pss IH]; intros n; [intros []|].
  intros [<-|Hin]; [eauto|].
  destruct (IH _ Hin) as [l [-> Hl]]. exists l. split; [reflexivity|lia].
Qed.

(** One reply makes the callbacks of [list] and [create] call exactly one
    of [resolve] and [reject], exactly once: [reject] with the error when
    there is one, [resolve] with the new handles otherwise. *)
Lemma list_create_settle_once this err pss ps evs w :
  this < length (store w) ->
  settle_all Pending
    (settlements (snd (Container.list_callback this err (VArr (map VObj pss)) w)) evs)
  = (if truthy err then Rejected err
     else Fulfilled (VArr (addresses pss (length (store w)))))
  /\ settle_all Pending
       (settlements (snd (Container.create_callback this err (VObj ps) w)) evs)
     = (if truthy err then Rejected err
        else Fulfilled (VRef (length (store w))))
  /\ length (settlements
               (snd (Container.list_callback this err (VArr (map VObj pss)) w)) evs) = 1
  /\ length (settlements
               (snd (Container.create_callback this err (VObj ps) w)) evs) = 1.
Proof.
  intros Hthis. destruct (truthy err) eqn:Herr.
  - destruct (callbacks_reject_an_error this err (VArr (map VObj pss)) w Herr)
      as [-> _].
    destruct (callbacks_reject_an_error this err (VObj ps) w Herr) as [_ [-> _]].
    repeat split.
  - rewrite list_callback_spec, create_callback_spec by assumption.
    repeat split.
Qed.

(** C7 (the code at the failing input). [container.inspect()] throws at
    the destructuring of the helper's record: it returns no promise, builds
    no handle and resolves with none; the store stays as it was. *)
Theorem C7_inspect_resolves_no_handle :
  Container.inspect 0 VUndefined VUndefined sample_world
  = (logged sample_world (ECall 0 "__processArguments" [VUndefined; VUndefined]),
     Throw not_iterable)
  /\ store (fst (Container.inspect 0 VUndefined VUndefined sample_world))
     = store sample_world.
Proof. split; reflexivity. Qed.

(** C8 (as stated, refuted). The body [{Id: "e90e34656806", id: "zzz"}]
    arrives without error and [create] resolves with a handle whose
    identifier is ["zzz"], not the [Id] of the body. *)
Lemma C8_body_property_id_replaces_identifier :
  ~ (exists w' h,
        Container.create_callback 0 VUndefined
          (VObj [("Id", VStr "e90e34656806"); ("id", VStr "zzz")]) sample_world
        = (w', Normal (Settled (Resolve (VRef h))))
        /\ field w' h "id" = VStr "e90e34656806").
Proof.
  intros (w' & h & H & Hid).
  vm_compute in H. injection H as <- <-. vm_compute in Hid. discriminate.
Qed.

(** C8 (amended). When the reply to [create] carries no error and its body
    is an object of plain values with no property named [id], the promise
    is resolved with a newly built handle whose identifier is the body's
    [Id], and every property of the body other than [__proto__] is an own
    property of that handle; a property named [id] in the body would
    replace the identifier.  A body property [__proto__] is not copied:
    the assignment goes to the inherited setter, which makes an object or
    [null] the prototype of the handle and ignores any other value. *)
Theorem C8_create_resolves_with_the_body_Id
    (this : nat) (err : value) (ps : obj) (w : world) :
  truthy err = false ->
  "id" ∉ keys ps ->
  NoDup (keys ps) ->
  plain (prop_get ps "__proto__") = true ->
  exists w' h,
    Container.create_callback this err (VObj ps) w
    = (w', Normal (Settled (Resolve (VRef (length (store w))))))
    /\ extends w w'
    /\ store w' !! length (store w) = Some h
    /\ field w' (length (store w)) "id" = prop_get ps "Id"
    /\ (forall k v,
          (k, v) ∈ ps -> k <> "__proto__" ->
          has_key (own h) k = true /\ field w' (length (store w)) k = v)
    /\ has_key (own h) "__proto__" = false
    /\ (forall v,
          ("__proto__", v) ∈ ps ->
          proto h = if object_or_null v then Replaced v
                    else ClassPrototype "Container")
    /\ ("__proto__" ∉ keys ps -> proto h = ClassPrototype "Container").
Proof.
  intros Herr Hid Hnd _. do 2 eexists.
  split; [now apply create_callback_spec|].
  split; [split; cbn; eauto|].
  unfold new_handle.
  set (bare := mkInstance _ (ClassPrototype "Container")).
  assert (forall rest t,
             store (mkWorld (store w ++ merge bare ps :: rest) t)
               !! length (store w) = Some (merge bare ps)) as Hat
    by (intros rest t; cbn [store]; now apply list_lookup_middle).
  split; [apply Hat|]. split; [|split; [|split; [|split]]].
  - rewrite (field_own _ _ _ _ (Hat _ _)) by now apply has_key_merge_mono.
    now rewrite prop_get_merge_other.
  - intros k v Hin Hk. split; [now apply (has_key_merge_in _ _ _ v)|].
    rewrite (field_own _ _ _ _ (Hat _ _)) by now apply (has_key_merge_in _ _ _ v).
    now apply prop_get_merge_in.
  - now apply has_key_merge_proto.
  - intros v Hin. now apply proto_merge_in.
  - intros Hp. now rewrite proto_merge_other.
Qed.

(** C8 (amended), on the sample handle with the body
    [{Id: "e90e34656806", __proto__: "s"}]. *)
Lemma C8_create_resolves_with_the_body_Id_witness :
  exists w' h,
    Container.create_callback 0 VUndefined
      (VObj [("Id", VStr "e90e34656806"); ("__proto__", VStr "s")]) sample_world
    = (w', Normal (Settled (Resolve (VRef (length (store sample_world))))))
    /\ extends sample_world w'
    /\ store w' !! length (store sample_world) = Some h
    /\ field w' (length (store sample_world)) "id"
       = prop_get [("Id", VStr "e90e34656806"); ("__proto__", VStr "s")] "Id"
    /\ (forall k v,
          (k, v) ∈ [("Id", VStr "e90e34656806"); ("__proto__", VStr "s")] ->
          k <> "__proto__" ->
          has_key (own h) k = true
          /\ field w' (length (store sample_world)) k = v)
    /\ has_key (own h) "__proto__" = false
    /\ (forall v,
          ("__proto__", v) ∈ [("Id", VStr "e90e34656806"); ("__proto__", VStr "s")] ->
          proto h = if object_or_null v then Replaced v
                    else ClassPrototype "Container")
    /\ ("__proto__" ∉ keys [("Id", VStr "e90e34656806"); ("__proto__", VStr "s")] ->
        proto h = ClassPrototype "Container").
Proof.
  apply (C8_create_resolves_with_the_body_Id 0 VUndefined
           [("Id", VStr "e90e34656806"); ("__proto__", VStr "s")] sample_world).
  - reflexivity.
  - apply (bool_decide_unpack _). vm_compute. exact I.
  - apply (bool_decide_unpack _). vm_compute. exact I.
  - reflexivity.
Defined.

(** * Further properties of the two classes and of the example *)

(** ** Routes *)

Lemma string_app_inv_head (s a b : string) : s +:+ a = s +:+ b -> a = b.
Proof. induction s as [|c s IH]; cbn; [tauto|]. intros [= H]. auto. Qed.

(** X1. No two operations that take [(opts, id)] send the same method to
    the same path for the same identifier, except [export] and [stats],
    which share [GET /containers/<id>/export]. *)
Theorem routes_distinct o1 o2 opts1 opts2 id :
  method (binary_call o1 opts1 id) = method (binary_call o2 opts2 id) ->
  path (binary_call o1 opts1 id) = path (binary_call o2 opts2 id) ->
  o1 = o2 \/ (export_or_stats o1 /\ export_or_stats o2).
Proof.
  destruct o1, o2; cbn [binary_call]; intros Hm Hp;
    try (left; reflexivity);
    try (exfalso; cbn in Hm; discriminate Hm);
    try (right; unfold export_or_stats; tauto);
    exfalso; cbn [path ContainerFs.get_call ContainerFs.put_call
      Container.inspect_call Container.top_call Container.logs_call
      Container.export_call Container.stats_call Container.resize_call
      Container.start_call Container.stop_call Container.restart_call
      Container.kill_call Container.update_call Container.rename_call
      Container.attach_call Container.wsattach_call Container.delete_call] in Hp;
    apply string_app_inv_head, string_app_inv_head in Hp; discriminate Hp.
Qed.

(** X1, on [export] and [stats] for the identifier ["abc"]. *)
Lemma routes_distinct_witness :
  Export = Stats \/ (export_or_stats Export /\ export_or_stats Stats).
Proof.
  apply (routes_distinct Export Stats VUndefined VUndefined (VStr "abc"));
    reflexivity.
Defined.

(** X2. The status table of every operation that takes [(opts, id)] lists
    its codes in ascending order (so each once), declares 404 as
    ['no such container'] and 500 as ['server error'], has a success entry,
    and maps every code to [true] or to a tag. *)
Theorem status_tables_are_well_formed (o : binary_operation) (opts id : value) :
  ascending (map fst (statusCodes (binary_call o opts id))) = true
  /\ In (404%Z, VStr "no such container") (statusCodes (binary_call o opts id))
  /\ In (500%Z, VStr "server error") (statusCodes (binary_call o opts id))
  /\ (exists code, In (code, VBool true) (statusCodes (binary_call o opts id)))
  /\ Forall (fun kv => kv.2 = VBool true \/ exists tag, kv.2 = VStr tag)
            (statusCodes (binary_call o opts id)).
Proof.
  destruct o; cbn;
    (split; [reflexivity|]);
    (split; [tauto|]); (split; [tauto|]);
    (split; [eexists; left; reflexivity|]);
    repeat (apply Forall_cons; split; [cbn; eauto|]); apply Forall_nil_2.
Qed.

(** ** The helpers at their edges *)

(** X3. A truthy second argument is the resolved identifier, whatever the
    first argument is (a string included): the helper of either class
    returns both arguments as given and reads nothing from the handle. *)
Theorem explicit_id_wins (this : nat) (opts id : value) (w : world) :
  truthy id = true ->
  Container.__processArguments this opts id w = (w, Normal (record opts id))
  /\ ContainerFs.__processArguments this opts id w = (w, Normal (record opts id)).
Proof.
  intros H. unfold Container.__processArguments, ContainerFs.__processArguments.
  rewrite H. cbn [negb]. rewrite !andb_false_r. rewrite H. cbn [negb].
  rewrite !andb_false_r. split; reflexivity.
Qed.

(** X3, with the arguments ["abc"] and ["def"]. *)
Lemma explicit_id_wins_witness :
  Container.__processArguments 0 (VStr "abc") (VStr "def") sample_world
  = (sample_world, Normal (record (VStr "abc") (VStr "def")))
  /\ ContainerFs.__processArguments 0 (VStr "abc") (VStr "def") sample_world
     = (sample_world, Normal (record (VStr "abc") (VStr "def"))).
Proof.
  apply (explicit_id_wins 0 (VStr "abc") (VStr "def") sample_world).
  reflexivity.
Defined.

(** X4. The stored identifier is used only when the first argument is
    falsy too: with an option bag (any truthy value that is not a string)
    and no identifier, the helper of either class leaves the identifier as
    it was given, and a descriptor built from it names the container
    ["undefined"]. *)
Theorem options_alone_do_not_fall_back (this : nat) (opts id : value) (w : world) :
  truthy opts = true ->
  typeof opts <> "string" ->
  truthy id = false ->
  Container.__processArguments this opts id w = (w, Normal (record opts id))
  /\ ContainerFs.__processArguments this opts id w = (w, Normal (record opts id))
  /\ path (Container.inspect_call opts VUndefined) = "/containers/undefined/json".
Proof.
  intros Ho Ht Hi. apply String.eqb_neq in Ht.
  unfold Container.__processArguments, ContainerFs.__processArguments.
  rewrite Ht, Ho. cbn. repeat split; reflexivity.
Qed.

(** X4, with the option bag [{all: true}] and no identifier. *)
Lemma options_alone_do_not_fall_back_witness :
  Container.__processArguments 0 (VObj [("all", VBool true)]) VUndefined sample_world
  = (sample_world, Normal (record (VObj [("all", VBool true)]) VUndefined))
  /\ ContainerFs.__processArguments 0 (VObj [("all", VBool true)]) VUndefined
       sample_world
     = (sample_world, Normal (record (VObj [("all", VBool true)]) VUndefined))
  /\ path (Container.inspect_call (VObj [("all", VBool true)]) VUndefined)
     = "/containers/undefined/json".
Proof.
  apply (options_alone_do_not_fall_back 0 (VObj [("all", VBool true)]) VUndefined
           sample_world).
  - reflexivity.
  - discriminate.
  - reflexivity.
Defined.

Lemma resolved_id_stable stored opts id :
  resolved_id stored opts (resolved_id stored opts id) = resolved_id stored opts id.
Proof.
  unfold resolved_id, takes_first.
  destruct (String.eqb (typeof opts) "string") eqn:Es;
  destruct (truthy opts) eqn:Eo; destruct (truthy id) eqn:Ei;
  destruct (truthy stored) eqn:Est;
    repeat (cbn [negb andb]; rewrite ?Es, ?Eo, ?Ei, ?Est); reflexivity.
Qed.

(** X5. Resolution is stable: giving the helper the identifier it has
    resolved, with the same first argument, resolves to that identifier
    again. *)
Theorem resolving_twice_changes_nothing (this : nat) (opts id : value) (w : world) :
  exists i,
    Container.__processArguments this opts id w = (w, Normal (record opts i))
    /\ Container.__processArguments this opts i w = (w, Normal (record opts i)).
Proof.
  exists (resolved_id (field w this "id") opts id).
  rewrite !Container_helper_resolution. now rewrite resolved_id_stable.
Qed.

(** X6. The helper of [ContainerFs] throws exactly when both arguments are
    falsy and the handle's [container] is [undefined] or [null]; in every
    other case it returns the record, and in both it leaves the world as it
    was. *)
Theorem fs_helper_fails_only_without_container (this : nat) (opts id : value) (w : world) :
  (negb (truthy opts) && negb (truthy id) && nullish (field w this "container") = true
   /\ ContainerFs.__processArguments this opts id w = (w, Throw nullish_read))
  \/ (negb (truthy opts) && negb (truthy id) && nullish (field w this "container") = false
      /\ exists i, ContainerFs.__processArguments this opts id w
                   = (w, Normal (record opts i))).
Proof. exact (ContainerFs_helper_cases this opts id w). Qed.

Lemma lookup_new_second {A} (l : list A) (a b : A) (rest : list A) :
  (l ++ a :: b :: rest)%list !! S (length l) = Some b.
Proof.
  rewrite (cons_middle a l (b :: rest)), app_assoc.
  apply list_lookup_middle. rewrite length_app. cbn. lia.
Qed.

Lemma field_new_first w a rest t k :
  has_key (own a) k = true ->
  field (mkWorld (store w ++ a :: rest) t) (length (store w)) k
  = prop_get (own a) k.
Proof. apply field_own. cbn [store]. now apply list_lookup_middle. Qed.

Lemma field_new_first_class w a rest t c k :
  proto a = ClassPrototype c ->
  field (mkWorld (store w ++ a :: rest) t) (length (store w)) k
  = prop_get (own a) k.
Proof. apply field_class. cbn [store]. now apply list_lookup_middle. Qed.

Lemma field_new_second_class w a b rest t c k :
  proto b = ClassPrototype c ->
  field (mkWorld (store w ++ a :: b :: rest) t) (S (length (store w))) k
  = prop_get (own b) k.
Proof. apply field_class. cbn [store]. apply lookup_new_second. Qed.

(** ** Construction *)

(** X7. [new Container(modem, id)] adds two instances and changes no
    other: the handle, holding [modem], [id] and its [fs], and the
    [ContainerFs], holding [modem] and a reference back to the handle; the
    resolution without arguments returns [id] on the handle and, through
    the back reference, on its [fs]. *)
Theorem constructor_round_trip (modem id : value) (w : world) :
  exists w',
    Container.constructor modem id w = (w', Normal (length (store w)))
    /\ extends w w'
    /\ length (store w') = length (store w) + 2
    /\ field w' (length (store w)) "id" = id
    /\ field w' (length (store w)) "modem" = modem
    /\ field w' (length (store w)) "fs" = VRef (S (length (store w)))
    /\ field w' (S (length (store w))) "container" = VRef (length (store w))
    /\ field w' (S (length (store w))) "modem" = modem
    /\ Container.__processArguments (length (store w)) VUndefined VUndefined w'
       = (w', Normal (record VUndefined id))
    /\ ContainerFs.__processArguments (S (length (store w))) VUndefined VUndefined w'
       = (w', Normal (record VUndefined id)).
Proof.
  eexists. split; [apply constructor_spec|].
  split; [split; cbn; eauto|].
  split; [cbn; rewrite length_app; reflexivity|].
  rewrite !(field_new_first_class _ _ _ _ "Container") by reflexivity.
  rewrite !(field_new_second_class _ _ _ _ _ "ContainerFs") by reflexivity.
  cbn [own prop_get String.eqb Ascii.eqb Bool.eqb].
  do 5 (split; [reflexivity|]).
  split.
  - rewrite Container_helper_resolution.
    rewrite (field_new_first_class _ _ _ _ "Container") by reflexivity.
    reflexivity.
  - erewrite ContainerFs_helper_resolution; [reflexivity|].
    unfold mbind, M_bind. rewrite GetV_ref.
    rewrite (field_new_second_class _ _ _ _ _ "ContainerFs") by reflexivity.
    cbn [own prop_get String.eqb Ascii.eqb Bool.eqb].
    rewrite GetV_ref.
    rewrite (field_new_first_class _ _ _ _ "Container") by reflexivity.
    reflexivity.
Qed.

(** ** [list] and [create] *)

(** X8. [list] and [create] never throw: on a handle whose [modem] is a
    modem they hand [dial] their descriptor once and return a pending
    promise; on any other handle they dial nothing and return a promise
    already rejected with a type error. *)
Theorem list_and_create_return_a_promise (this : nat) (opts : value) (w : world) :
  (exists m,
      field w this "modem" = VModem m
      /\ Container.list this opts w
         = (logged w (EDial m (Container.list_call opts)),
            Normal (mkPromise Pending (Some (Container.list_callback this))))
      /\ Container.create this opts w
         = (logged w (EDial m (Container.create_call opts)),
            Normal (mkPromise Pending (Some (Container.create_callback this)))))
  \/ (exists e,
        requests (Container.list this opts) w = []
        /\ requests (Container.create this opts) w = []
        /\ Container.list this opts w
           = (w, Normal (mkPromise (Rejected (VError (TypeError e))) None))
        /\ Container.create this opts w
           = (w, Normal (mkPromise (Rejected (VError (TypeError e))) None))).
Proof.
  unfold Container.list, Container.create.
  rewrite !requests_new_Promise.
  unfold new_Promise, mbind, M_bind. rewrite !GetV_ref.
  destruct (field w this "modem") eqn:E; cbn;
    try (right; eexists; repeat split; reflexivity).
  left. eexists. repeat split; reflexivity.
Qed.

Lemma length_built m pss n : length (built m pss n) = 2 * length pss.
Proof. revert n. induction pss as [|ps pss IH]; intros n; cbn; [|rewrite IH]; lia. Qed.

Lemma length_addresses pss n : length (addresses pss n) = length pss.
Proof. revert n. induction pss as [|ps pss IH]; intros n; cbn; [|rewrite IH]; lia. Qed.

Lemma addresses_lookup pss n i ps :
  pss !! i = Some ps -> addresses pss n !! i = Some (VRef (n + 2 * i)).
Proof.
  revert n i. induction pss as [|p pss IH]; intros n [|i] H; try discriminate.
  - replace (n + 2 * 0) with n by lia. reflexivity.
  - replace (n + 2 * S i) with (S (S n) + 2 * i) by lia.
    cbn in H |- *. now apply IH.
Qed.

Lemma built_lookup m pss n i ps :
  pss !! i = Some ps ->
  built m pss n !! (2 * i)
  = Some (merge (mkInstance [("modem", m); ("id", prop_get ps "Id");
                             ("fs", VRef (S (n + 2 * i)))]
                            (ClassPrototype "Container")) ps).
Proof.
  revert n i. induction pss as [|p pss IH]; intros n [|i] H; try discriminate.
  - cbn in H. injection H as ->.
    replace (n + 2 * 0) with n by lia. reflexivity.
  - cbn in H. replace (2 * S i) with (S (S (2 * i))) by lia.
    replace (n + S (S (2 * i))) with (S (S n) + 2 * i) by lia.
    cbn [built new_handle app lookup list_lookup]. now apply IH.
Qed.

Lemma addresses_NoDup pss n : NoDup (addresses pss n).
Proof.
  revert n. induction pss as [|p pss IH]; intros n; cbn; constructor; [|apply IH].
  intros Hin. apply list_elem_of_In, addresses_fresh in Hin as [l [[= <-] Hl]]. lia.
Qed.

(** X9. A reply to [list] without error whose body is an array of objects
    resolves the promise with one handle per object, in order, each newly
    built and no two the same; each handle without a body property [id] has
    the [Id] of its object as identifier; the store grows by two instances
    per object and keeps the others. *)
Theorem list_builds_one_handle_per_body
    (this : nat) (err : value) (pss : list obj) (w : world) :
  truthy err = false ->
  this < length (store w) ->
  exists w' hs,
    Container.list_callback this err (VArr (map VObj pss)) w
    = (w', Normal (Settled (Resolve (VArr hs))))
    /\ extends w w'
    /\ length (store w') = length (store w) + 2 * length pss
    /\ length hs = length pss
    /\ NoDup hs
    /\ forall i ps,
         pss !! i = Some ps ->
         hs !! i = Some (VRef (length (store w) + 2 * i))
         /\ ("id" ∉ keys ps ->
             field w' (length (store w) + 2 * i) "id" = prop_get ps "Id").
Proof.
  intros Herr Hthis. do 2 eexists.
  split; [now apply list_callback_spec|].
  split; [split; cbn; eauto|].
  split; [cbn; now rewrite length_app, length_built|].
  split; [apply length_addresses|].
  split; [apply addresses_NoDup|].
  intros i ps Hi. split; [now apply (addresses_lookup _ _ _ ps)|].
  intros Hid.
  match goal with |- field ?w1 ?l _ = _ =>
    assert (store w1 !! l = _) as Hat
      by (cbn [store]; rewrite lookup_app_r by lia;
          replace (length (store w) + 2 * i - length (store w)) with (2 * i)
            by lia;
          apply (built_lookup _ _ _ _ _ Hi)) end.
  rewrite (field_own _ _ _ _ Hat) by now apply has_key_merge_mono.
  now rewrite prop_get_merge_other.
Qed.

(** X9, on the sample handle with two bodies. *)
Lemma list_builds_one_handle_per_body_witness :
  exists w' hs,
    Container.list_callback 0 VUndefined
      (VArr (map VObj [[("Id", VStr "a")]; [("Id", VStr "b")]])) sample_world
    = (w', Normal (Settled (Resolve (VArr hs))))
    /\ extends sample_world w'
    /\ length (store w')
       = length (store sample_world)
         + 2 * length [[("Id", VStr "a")]; [("Id", VStr "b")]]
    /\ length hs = length [[("Id", VStr "a")]; [("Id", VStr "b")]]
    /\ NoDup hs
    /\ forall i ps,
         [[("Id", VStr "a")]; [("Id", VStr "b")]] !! i = Some ps ->
         hs !! i = Some (VRef (length (store sample_world) + 2 * i))
         /\ ("id" ∉ keys ps ->
             field w' (length (store sample_world) + 2 * i) "id"
             = prop_get ps "Id").
Proof.
  apply (list_builds_one_handle_per_body 0 VUndefined
           [[("Id", VStr "a")]; [("Id", VStr "b")]] sample_world).
  - reflexivity.
  - vm_compute. lia.
Defined.

(** X10. A reply to [list] without error whose body is not an array makes
    the callback throw a type error: it calls neither [resolve] nor
    [reject] and leaves the world as it was. *)
Theorem list_needs_an_array (this : nat) (err res : value) (w : world) :
  truthy err = false ->
  (forall l, res <> VArr l) ->
  exists msg, Container.list_callback this err res w = (w, Throw (TypeError msg)).
Proof.
  intros Herr Hres. unfold Container.list_callback. rewrite Herr.
  destruct res; try (eexists; reflexivity).
  now destruct (Hres elems).
Qed.

(** X10, with an object as body. *)
Lemma list_needs_an_array_witness :
  exists msg,
    Container.list_callback 0 VUndefined (VObj []) sample_world
    = (sample_world, Throw (TypeError msg)).
Proof.
  apply (list_needs_an_array 0 VUndefined (VObj []) sample_world).
  - reflexivity.
  - intros l. discriminate.
Defined.

(** X11. A reply to [create] without error and with [null] or [undefined]
    as body makes the callback throw on reading [conf.Id]: the promise is
    neither resolved nor rejected and nothing is built. *)
Theorem create_needs_a_body (this : nat) (err res : value) (w : world) :
  truthy err = false ->
  nullish res = true ->
  Container.create_callback this err res w = (w, Throw nullish_read).
Proof.
  intros Herr Hres. unfold Container.create_callback. rewrite Herr.
  destruct res; try discriminate; reflexivity.
Qed.

(** X11, with [null] as body. *)
Lemma create_needs_a_body_witness :
  Container.create_callback 0 VUndefined VNull sample_world
  = (sample_world, Throw nullish_read).
Proof.
  apply (create_needs_a_body 0 VUndefined VNull sample_world); reflexivity.
Defined.

Lemma array_map_app f l1 l2 w w1 ys :
  array_map f l1 w = (w1, Normal ys) ->
  array_map f (l1 ++ l2) w
  = match array_map f l2 w1 with
    | (w2, Normal zs) => (w2, Normal (ys ++ zs)%list)
    | (w2, Throw e) => (w2, Throw e)
    end.
Proof.
  revert w ys. induction l1 as [|x l1 IH]; intros w ys H; cbn in H |- *.
  - injection H as <- <-. now destruct (array_map f l2 w) as [w2 [zs|e]].
  - unfold mbind, M_bind in H |- *.
    destruct (f x w) as [wx [y|e]]; [|discriminate].
    destruct (array_map f l1 wx) as [wy [ys'|e]] eqn:E; [|discriminate].
    injection H as <- <-. rewrite (IH _ _ E).
    now destruct (array_map f l2 wy) as [w2 [zs|e]].
Qed.

(** X12. A [null] among the bodies of a reply to [list] makes the callback
    throw there: the handles built for the objects before it stay in the
    store, none is built for what follows, and the promise is not
    settled. *)
Theorem list_fails_midway
    (this : nat) (err : value) (pss : list obj) (rest : list value) (w : world) :
  truthy err = false ->
  this < length (store w) ->
  Container.list_callback this err (VArr (map VObj pss ++ VNull :: rest)) w
  = (mkWorld (store w ++ built (field w this "modem") pss (length (store w)))
             (log w),
     Throw nullish_read).
Proof.
  intros Herr Hthis. unfold Container.list_callback. rewrite Herr.
  unfold mbind at 1, M_bind at 1.
  erewrite array_map_app by (now apply array_map_build).
  reflexivity.
Qed.

(** X12, with one object and then [null]. *)
Lemma list_fails_midway_witness :
  Container.list_callback 0 VUndefined
    (VArr (map VObj [[("Id", VStr "a")]] ++ VNull :: [])) sample_world
  = (mkWorld (store sample_world ++
                built (field sample_world 0 "modem") [[("Id", VStr "a")]]
                      (length (store sample_world)))
             (log sample_world),
     Throw nullish_read).
Proof.
  apply (list_fails_midway 0 VUndefined [[("Id", VStr "a")]] [] sample_world).
  - reflexivity.
  - vm_compute. lia.
Defined.

Lemma settle_all_settled p ss : p <> Pending -> settle_all p ss = p.
Proof.
  unfold settle_all. revert p. induction ss as [|s ss IH]; intros p Hp; cbn;
    [reflexivity|].
  destruct p; [now destruct Hp| |]; cbn; apply IH; discriminate.
Qed.

Lemma deliver_final res evs :
  settle_all Pending (deliver res evs)
  = match until_end evs with
    | Some chunks => Fulfilled (VStr (String.concat "" (res ++ chunks)))
    | None => Pending
    end.
Proof.
  revert res. induction evs as [|[chunk|] evs IH]; intros res;
    cbn [deliver until_end].
  - reflexivity.
  - rewrite IH. unfold Container.export_on_data.
    destruct (until_end evs); cbn [option_map]; [now rewrite <- app_assoc|reflexivity].
  - rewrite app_nil_r.
    change (settle_all (Fulfilled (VStr (String.concat "" res))) (deliver res evs)
            = Fulfilled (VStr (String.concat "" res))).
    now apply settle_all_settled.
Qed.

(** ** The callbacks *)

(** X13. When a reply hands the callback of [export] a stream, the promise
    ends up, whatever the stream emits and however often it ends:
    rejected with the error when there is one; otherwise pending for ever
    when [opts] is [undefined] or [null] (the callback throws on
    [opts.stream]); otherwise fulfilled with the stream itself when
    [opts.stream] is truthy; otherwise fulfilled with the chunks emitted
    before the first ['end'], joined in order, and pending for ever when
    the stream never ends. *)
Theorem export_settles_by_flag_and_stream
    (opts err : value) (s : nat) (evs : list stream_event) (w : world) :
  settle_all Pending
    (settlements (snd (Container.export_callback opts err (VStream s) w)) evs)
  = if truthy err then Rejected err
    else if nullish opts then Pending
    else if truthy (stream_flag w opts) then Fulfilled (VStream s)
    else match until_end evs with
         | Some chunks => Fulfilled (VStr (String.concat "" chunks))
         | None => Pending
         end.
Proof.
  rewrite export_callback_cases.
  destruct (truthy err); [reflexivity|].
  destruct (nullish opts); [reflexivity|].
  destruct (truthy (stream_flag w opts)); [reflexivity|].
  apply deliver_final.
Qed.

(** X14. The callback of [inspect] builds its handle from the resolved
    identifier, not from the body.  For a body that is an object of plain
    values without a property [id], the handle has that identifier and
    owns every property of the body but [__proto__], which it never owns:
    an object or [null] under that name becomes the prototype of the
    handle, any other value is ignored.  For a [null] body, where [create]
    would throw, it resolves with the bare handle. *)
Theorem inspect_callback_builds_from_the_resolved_id
    (this : nat) (id err : value) (ps : obj) (w : world) :
  truthy err = false ->
  "id" ∉ keys ps ->
  NoDup (keys ps) ->
  plain (prop_get ps "__proto__") = true ->
  (exists w' h,
      Container.inspect_callback this id err (VObj ps) w
      = (w', Normal (Settled (Resolve (VRef (length (store w))))))
      /\ extends w w'
      /\ store w' !! length (store w) = Some h
      /\ field w' (length (store w)) "id" = id
      /\ (forall k v,
            (k, v) ∈ ps -> k <> "__proto__" ->
            has_key (own h) k = true /\ field w' (length (store w)) k = v)
      /\ has_key (own h) "__proto__" = false
      /\ (forall v,
            ("__proto__", v) ∈ ps ->
            proto h = if object_or_null v then Replaced v
                      else ClassPrototype "Container")
      /\ ("__proto__" ∉ keys ps -> proto h = ClassPrototype "Container"))
  /\ Container.inspect_callback this id err VNull w
     = (mkWorld (store w ++
                   [mkInstance [("modem", field w this "modem"); ("id", id);
                                ("fs", VRef (S (length (store w))))]
                               (ClassPrototype "Container");
                    mkInstance [("modem", field w this "modem");
                                ("container", VRef (length (store w)))]
                               (ClassPrototype "ContainerFs")])
                (log w),
        Normal (Settled (Resolve (VRef (length (store w)))))).
Proof.
  intros Herr Hid Hnd _. unfold Container.inspect_callback. rewrite Herr.
  unfold mbind, M_bind. rewrite GetV_ref, constructor_spec.
  unfold Object_assign, mbind, M_bind, get_world. cbn [own_props store].
  rewrite !assign_props_spec. cbn [store log mret M_ret].
  rewrite !alter_at_length. cbn [alter list_alter].
  split; [|reflexivity].
  do 2 eexists. split; [reflexivity|]. split; [split; cbn; eauto|].
  cbn [store]. rewrite list_lookup_middle by reflexivity.
  split; [reflexivity|].
  split; [|split; [|split; [|split]]].
  - rewrite field_new_first by now apply has_key_merge_mono.
    now rewrite prop_get_merge_other.
  - intros k v Hin Hk. split; [now apply (has_key_merge_in _ _ _ v)|].
    rewrite field_new_first by now apply (has_key_merge_in _ _ _ v).
    now apply prop_get_merge_in.
  - now apply has_key_merge_proto.
  - intros v Hin. now apply proto_merge_in.
  - intros Hp. now rewrite proto_merge_other.
Qed.

(** X14, for the identifier ["abc"] and the body
    [{Name: "/x", __proto__: null}]. *)
Lemma inspect_callback_builds_from_the_resolved_id_witness :
  (exists w' h,
      Container.inspect_callback 0 (VStr "abc") VUndefined
        (VObj [("Name", VStr "/x"); ("__proto__", VNull)]) sample_world
      = (w', Normal (Settled (Resolve (VRef (length (store sample_world))))))
      /\ extends sample_world w'
      /\ store w' !! length (store sample_world) = Some h
      /\ field w' (length (store sample_world)) "id" = VStr "abc"
      /\ (forall k v,
            (k, v) ∈ [("Name", VStr "/x"); ("__proto__", VNull)] ->
            k <> "__proto__" ->
            has_key (own h) k = true
            /\ field w' (length (store sample_world)) k = v)
      /\ has_key (own h) "__proto__" = false
      /\ (forall v,
            ("__proto__", v) ∈ [("Name", VStr "/x"); ("__proto__", VNull)] ->
            proto h = if object_or_null v then Replaced v
                      else ClassPrototype "Container")
      /\ ("__proto__" ∉ keys [("Name", VStr "/x"); ("__proto__", VNull)] ->
          proto h = ClassPrototype "Container"))
  /\ Container.inspect_callback 0 (VStr "abc") VUndefined VNull sample_world
     = (mkWorld (store sample_world ++
                   [mkInstance [("modem", field sample_world 0 "modem");
                                ("id", VStr "abc");
                                ("fs", VRef (S (length (store sample_world))))]
                               (ClassPrototype "Container");
                    mkInstance [("modem", field sample_world 0 "modem");
                                ("container", VRef (length (store sample_world)))]
                               (ClassPrototype "ContainerFs")])
                (log sample_world),
        Normal (Settled (Resolve (VRef (length (store sample_world)))))).
Proof.
  apply (inspect_callback_builds_from_the_resolved_id 0 (VStr "abc") VUndefined
           [("Name", VStr "/x"); ("__proto__", VNull)] sample_world).
  - reflexivity.
  - apply (bool_decide_unpack _). vm_compute. exact I.
  - apply (bool_decide_unpack _). vm_compute. exact I.
  - reflexivity.
Defined.

Lemma never_rejects_bind {A} (m : M A) (f : A -> M cb_effect) :
  (forall a, never_rejects (f a)) -> never_rejects (m ≫= f).
Proof.
  intros Hf w w' e. unfold mbind, M_bind.
  destruct (m w) as [w1 [a|e1]]; [apply Hf|discriminate].
Qed.

Lemma never_rejects_resolve v : never_rejects (mret (Settled (Resolve v))).
Proof. intros w w' e. discriminate. Qed.

Lemma never_rejects_throw e : never_rejects (throw e).
Proof. intros w w' e'. discriminate. Qed.

Lemma never_rejects_subscribed s b : never_rejects (mret (Subscribed s b)).
Proof. intros w w' e. discriminate. Qed.

#[local] Hint Resolve never_rejects_resolve never_rejects_throw
  never_rejects_subscribed : frame.

Lemma callbacks_without_error_never_reject this err res :
  truthy err = false ->
  never_rejects (Container.list_callback this err res)
  /\ never_rejects (Container.create_callback this err res)
  /\ forall o opts id, never_rejects (binary_callback o this opts id err res).
Proof.
  intros H. split; [|split].
  - unfold Container.list_callback. rewrite H.
    destruct res; auto with frame.
    apply never_rejects_bind. auto with frame.
  - unfold Container.create_callback. rewrite H.
    repeat (apply never_rejects_bind; intros ?). auto with frame.
  - intros o opts id.
    destruct o; cbn [binary_callback];
      unfold Container.inspect_callback, Container.export_callback,
        resolve_with_result, resolve_with_nothing;
      rewrite H; auto with frame.
    + repeat (apply never_rejects_bind; intros ?). auto with frame.
    + apply never_rejects_bind. intros f.
      destruct (truthy f); auto with frame.
      destruct res; auto with frame.
Qed.

Lemma reject_iff (cb : M cb_effect) err e w w' :
  (truthy err = true -> cb w = (w, Normal (Settled (Reject err)))) ->
  (truthy err = false -> never_rejects cb) ->
  cb w = (w', Normal (Settled (Reject e)))
  <-> truthy err = true /\ e = err /\ w' = w.
Proof.
  intros Hyes Hno. destruct (truthy err) eqn:Herr.
  - rewrite (Hyes eq_refl). split.
    + intros [= -> ->]. auto.
    + intros [_ [-> ->]]. reflexivity.
  - split.
    + intros Hr. destruct (Hno eq_refl _ _ _ Hr).
    + intros [? _]. discriminate.
Qed.

(** X15. The callback of [list], of [create] and of every operation that
    takes [(opts, id)] calls [reject] exactly when the error of the reply
    is truthy, then with that error and with no other effect; a falsy
    error ([null], [undefined], [0], the empty string, [false]) never
    rejects, whatever the result is. *)
Theorem a_reply_rejects_exactly_on_error
    (this : nat) (o : binary_operation) (opts id err res e : value) (w w' : world) :
  (Container.list_callback this err res w = (w', Normal (Settled (Reject e)))
   <-> truthy err = true /\ e = err /\ w' = w)
  /\ (Container.create_callback this err res w = (w', Normal (Settled (Reject e)))
      <-> truthy err = true /\ e = err /\ w' = w)
  /\ (binary_callback o this opts id err res w = (w', Normal (Settled (Reject e)))
      <-> truthy err = true /\ e = err /\ w' = w).
Proof.
  split; [|split]; apply reject_iff; intros Herr;
    solve [ apply (callbacks_reject_an_error this err res w Herr)
          | apply (callbacks_without_error_never_reject this err res Herr) ].
Qed.

(** X15, on the callback of [create] with the error ["boom"]. *)
Lemma a_reply_rejects_exactly_on_error_witness :
  Container.create_callback 0 (VStr "boom") VNull sample_world
  = (sample_world, Normal (Settled (Reject (VStr "boom")))).
Proof.
  apply (proj1 (proj2 (a_reply_rejects_exactly_on_error 0 Start VUndefined
                         VUndefined (VStr "boom") VNull (VStr "boom")
                         sample_world sample_world))).
  repeat split; reflexivity.
Defined.

(** ** From [create] to the next call *)

Lemma has_method_new_first w a rest t c name :
  proto a = ClassPrototype c ->
  name ∈ methods c ->
  has_key (own a) name = false ->
  has_method (mkWorld (store w ++ a :: rest) t) (length (store w)) c name = true.
Proof.
  intros Hp Hin Hown. unfold has_method. cbn [store].
  rewrite list_lookup_middle by reflexivity. rewrite Hp, Hown, String.eqb_refl.
  cbn [negb andb]. rewrite andb_true_r.
  apply existsb_exists. exists name. split; [now apply list_elem_of_In|].
  apply String.eqb_refl.
Qed.

Lemma has_method_new_second w a b rest t c name :
  proto b = ClassPrototype c ->
  name ∈ methods c ->
  has_key (own b) name = false ->
  has_method (mkWorld (store w ++ a :: b :: rest) t) (S (length (store w))) c name
  = true.
Proof.
  intros Hp Hin Hown. unfold has_method. cbn [store].
  rewrite (cons_middle a (store w) (b :: rest)), app_assoc.
  rewrite list_lookup_middle by (rewrite length_app; cbn; lia).
  rewrite Hp, Hown, String.eqb_refl.
  cbn [negb andb]. rewrite andb_true_r.
  apply existsb_exists. exists name. split; [now apply list_elem_of_In|].
  apply String.eqb_refl.
Qed.

Lemma reserved_free ps k :
  Forall (fun k => k ∉ reserved) (keys ps) -> k ∈ reserved -> k ∉ keys ps.
Proof.
  intros Hall Hk Hin. rewrite Forall_forall in Hall. now apply (Hall k Hin).
Qed.

(** X16. The handle [create] resolves with, for a body without the
    properties [__proto__], [id], [modem] and [fs] and without a property
    named like a method of [Container], is a complete handle: it and its
    [fs] have every method of their class; it shares the modem of the
    handle [create] was called on, so [list] on it dials as on that
    handle; its [fs] refers back to it; the resolution without arguments
    returns the body's [Id] on it and on its [fs].  Calling [start()] on
    it, as the example does next, throws the type error of the
    destructuring. *)
Theorem created_handle_is_usable
    (this : nat) (err opts : value) (ps : obj) (w : world) :
  truthy err = false ->
  Forall (fun k => k ∉ reserved) (keys ps) ->
  exists w',
    Container.create_callback this err (VObj ps) w
    = (w', Normal (Settled (Resolve (VRef (length (store w))))))
    /\ (forall name,
          name ∈ methods "Container" ->
          has_method w' (length (store w)) "Container" name = true)
    /\ (forall name,
          name ∈ methods "ContainerFs" ->
          has_method w' (S (length (store w))) "ContainerFs" name = true)
    /\ field w' (length (store w)) "modem" = field w this "modem"
    /\ field w' (length (store w)) "fs" = VRef (S (length (store w)))
    /\ field w' (S (length (store w))) "container" = VRef (length (store w))
    /\ Container.__processArguments (length (store w)) VUndefined VUndefined w'
       = (w', Normal (record VUndefined (prop_get ps "Id")))
    /\ ContainerFs.__processArguments (S (length (store w))) VUndefined VUndefined w'
       = (w', Normal (record VUndefined (prop_get ps "Id")))
    /\ requests (Container.list (length (store w)) opts) w'
       = requests (Container.list this opts) w
    /\ snd (Container.start (length (store w)) VUndefined VUndefined w')
       = Throw not_iterable.
Proof.
  intros Herr Hall.
  assert (forall k, k ∈ reserved -> k ∉ keys ps) as Hfree
    by (intros k; now apply reserved_free).
  assert ("__proto__" ∉ keys ps) as Hproto
    by (apply Hfree, (bool_decide_unpack _); vm_compute; exact I).
  assert ("id" ∉ keys ps) as Hid
    by (apply Hfree, (bool_decide_unpack _); vm_compute; exact I).
  assert ("modem" ∉ keys ps) as Hmodem
    by (apply Hfree, (bool_decide_unpack _); vm_compute; exact I).
  assert ("fs" ∉ keys ps) as Hfs
    by (apply Hfree, (bool_decide_unpack _); vm_compute; exact I).
  eexists.
  split; [now apply create_callback_spec|].
  unfold new_handle.
  set (bare := mkInstance [("modem", field w this "modem");
                           ("id", prop_get ps "Id");
                           ("fs", VRef (S (length (store w))))]
                          (ClassPrototype "Container")).
  assert (forall k, k ∉ keys ps ->
            prop_get (own (merge bare ps)) k = prop_get (own bare) k) as Hkeep
    by (intros k Hk; now apply prop_get_merge_other).
  split; [|split].
  - intros name Hin. apply has_method_new_first; [|exact Hin|].
    + now rewrite proto_merge_other.
    + rewrite has_key_merge_other; [|apply Hfree; now do 4 right|exact Hproto].
      unfold methods in Hin. cbn [String.eqb Ascii.eqb Bool.eqb] in Hin.
      repeat (apply elem_of_cons in Hin as [->|Hin]; [reflexivity|]).
      now apply elem_of_nil in Hin.
  - intros name Hin. apply has_method_new_second; [reflexivity|exact Hin|].
    unfold methods in Hin. cbn [String.eqb Ascii.eqb Bool.eqb] in Hin.
    repeat (apply elem_of_cons in Hin as [->|Hin]; [reflexivity|]).
    now apply elem_of_nil in Hin.
  - assert (proto (merge bare ps) = ClassPrototype "Container") as Hclass
      by now rewrite proto_merge_other.
    rewrite !(field_new_first_class _ _ _ _ _ _ Hclass).
    rewrite !(field_new_second_class _ _ _ _ _ "ContainerFs") by reflexivity.
    rewrite (Hkeep "modem" Hmodem), (Hkeep "fs" Hfs).
    do 3 (split; [reflexivity|]).
    split; [|split; [|split]].
    + rewrite Container_helper_resolution, (field_new_first_class _ _ _ _ _ _ Hclass).
      now rewrite (Hkeep "id" Hid).
    + erewrite ContainerFs_helper_resolution; [reflexivity|].
      unfold mbind, M_bind. rewrite GetV_ref.
      rewrite (field_new_second_class _ _ _ _ _ "ContainerFs") by reflexivity.
      cbn [own prop_get String.eqb Ascii.eqb Bool.eqb].
      rewrite GetV_ref, (field_new_first_class _ _ _ _ _ _ Hclass).
      now rewrite (Hkeep "id" Hid).
    + unfold Container.list.
      rewrite !requests_new_Promise, (field_new_first_class _ _ _ _ _ _ Hclass).
      now rewrite (Hkeep "modem" Hmodem).
    + match goal with |- snd (Container.start ?h ?a ?b ?w1) = _ =>
        pose proof (run_fails (Binary Start) h a b w1) as Hrun end.
      cbn [run run_binary] in Hrun. rewrite Hrun. reflexivity.
Qed.

(** X16, for the body [{Id: "e90e34656806", Warnings: []}]. *)
Lemma created_handle_is_usable_witness :
  exists w',
    Container.create_callback 0 VUndefined
      (VObj [("Id", VStr "e90e34656806"); ("Warnings", VArr [])]) sample_world
    = (w', Normal (Settled (Resolve (VRef (length (store sample_world))))))
    /\ (forall name,
          name ∈ methods "Container" ->
          has_method w' (length (store sample_world)) "Container" name = true)
    /\ (forall name,
          name ∈ methods "ContainerFs" ->
          has_method w' (S (length (store sample_world))) "ContainerFs" name = true)
    /\ field w' (length (store sample_world)) "modem" = field sample_world 0 "modem"
    /\ field w' (length (store sample_world)) "fs"
       = VRef (S (length (store sample_world)))
    /\ field w' (S (length (store sample_world))) "container"
       = VRef (length (store sample_world))
    /\ Container.__processArguments (length (store sample_world))
         VUndefined VUndefined w'
       = (w', Normal (record VUndefined
                        (prop_get [("Id", VStr "e90e34656806"); ("Warnings", VArr [])]
                                  "Id")))
    /\ ContainerFs.__processArguments (S (length (store sample_world)))
         VUndefined VUndefined w'
       = (w', Normal (record VUndefined
                        (prop_get [("Id", VStr "e90e34656806"); ("Warnings", VArr [])]
                                  "Id")))
    /\ requests (Container.list (length (store sample_world)) VUndefined) w'
       = requests (Container.list 0 VUndefined) sample_world
    /\ snd (Container.start (length (store sample_world)) VUndefined VUndefined w')
       = Throw not_iterable.
Proof.
  apply (created_handle_is_usable 0 VUndefined VUndefined
           [("Id", VStr "e90e34656806"); ("Warnings", VArr [])] sample_world).
  - reflexivity.
  - apply (bool_decide_unpack _). vm_compute. exact I.
Defined.

(** ** The example's [promisifyStream] *)

(** X17. The promise [promisifyStream] returns takes the first ['end'] or
    ['error'] the stream emits (fulfilled with nothing, or rejected with
    the error) and ignores the later ones; it stays pending while neither
    comes; every chunk is printed, in order, also after the promise is
    settled. *)
Theorem promisifyStream_takes_the_first_outcome (evs : list ExampleScript.emitted) :
  settle_all Pending (snd (ExampleScript.promisifyStream evs)) = first_outcome evs
  /\ fst (ExampleScript.promisifyStream evs) = printed evs.
Proof.
  induction evs as [|[d| |e] evs [IH1 IH2]]; cbn [ExampleScript.promisifyStream];
    [split; reflexivity| | |];
    destruct (ExampleScript.promisifyStream evs) as [out ss]; cbn in IH1, IH2 |- *.
  - split; [exact IH1|now rewrite IH2].
  - split; [|exact IH2].
    change (settle_all (Fulfilled VUndefined) ss = Fulfilled VUndefined).
    now apply settle_all_settled.
  - split; [|exact IH2].
    change (settle_all (Rejected e) ss = Rejected e).
    now apply settle_all_settled.
Qed.

